(** * Utility Municipalization Monitor: the mention store and its handlers

    A shallow embedding of [src/app.py]: the two JSON files under
    [DATA_DIR], the persistence helpers ([load_mentions], [save_mentions],
    [load_crawl_log], [save_crawl_log]) and the request handlers
    [get_mentions], [update_mention], [delete_mention], [trigger_crawl]
    and [get_crawl_log], followed by the properties established for them.

    Conventions.
    - A JSON document is a [value]; JSON numbers are integers here
      (floating point numbers are not represented).
    - A Python [dict] with string keys is a [gmap string value]: Python's
      [==] on dicts ignores key order, and so does equality of [gmap]s.
    - A handler is a function of the request parameters and of the [world]
      (the two files, the faults the disk answers writes with, and the
      list of effects performed so far); it returns the response and,
      when the handler can write, the world it leaves behind.
    - [mentions.json], when [json.load] accepts it, is taken to hold an
      array of objects, and [crawl_log.json] an array; the crawler is
      taken to return a list of objects and to leave both files alone.
    - Calls to [logger] are not represented. *)

From stdpp Require Import base option list gmap strings pretty.

#[local] Set Warnings "-register-all".
#[local] Open Scope Z_scope.

(** ** JSON values as Python sees them *)

Inductive value :=
| VNone
| VBool (b : bool)
| VInt (z : Z)
| VStr (s : string)
| VList (l : list value)
| VDict (d : gmap string value).

(** A mention is one JSON object of [mentions.json]. *)
Abbreviation mention := (gmap string value).

(** [m.get(k)]: the value under [k], [None] when the key is missing. *)
Definition dict_get (m : gmap string value) (k : string) : value :=
  default VNone (m !! k).

(** [v == s] for a [str] [s]: only the same string is equal to a string. *)
Definition py_eq_str (v : value) (s : string) : bool :=
  match v with
  | VStr t => bool_decide (t = s)
  | _ => false
  end.

(** Truth value of a JSON value ([if v:], [v or d]). *)
Definition py_truthy (v : value) : bool :=
  match v with
  | VNone => false
  | VBool b => b
  | VInt z => bool_decide (z ≠ 0)
  | VStr s => bool_decide (s ≠ "")
  | VList l => bool_decide (l ≠ [])
  | VDict d => bool_decide (d ≠ ∅)
  end.

(** ** Exceptions *)

Inductive exn :=
| TypeError
| AttributeError
| KeyError
| Raised (description : string).

Inductive result (A : Type) :=
| Ok (a : A)
| Raise (e : exn).
Arguments Ok {A} a.
Arguments Raise {A} e.

#[global] Instance result_ret : MRet result := λ A a, Ok a.
#[global] Instance result_bind : MBind result := λ A B f r,
  match r with
  | Ok a => f a
  | Raise e => Raise e
  end.

(** ** Hashing: the elements of a Python [set]

    [None], booleans, integers and strings are hashable; lists and dicts
    are not, and putting one in a set (or testing it for membership)
    raises [TypeError]. Two hashable JSON values are the same set element
    exactly when they have the same [key] ([True == 1] and
    [False == 0]). *)

Inductive key :=
| KNone
| KInt (z : Z)
| KStr (s : string).

#[global] Instance key_eq_dec : EqDecision key.
Proof. solve_decision. Defined.

#[global] Instance key_countable : Countable key.
Proof.
  refine (inj_countable'
    (λ k, match k with
          | KNone => inl ()
          | KInt z => inr (inl z)
          | KStr s => inr (inr s)
          end)
    (λ c, match c with
          | inl _ => KNone
          | inr (inl z) => KInt z
          | inr (inr s) => KStr s
          end) _).
  by intros [].
Defined.

Definition py_hash_key (v : value) : result key :=
  match v with
  | VNone => Ok KNone
  | VBool b => Ok (KInt (if b then 1 else 0))
  | VInt z => Ok (KInt z)
  | VStr s => Ok (KStr s)
  | VList _ | VDict _ => Raise TypeError
  end.

(** ** Slices *)

(** Where a slice bound [i] falls in a list: negative bounds count from
    the end, and every bound is clamped to the list. *)
Definition slice_index {A} (i : Z) (l : list A) : nat :=
  let n := Z.of_nat (length l) in
  Z.to_nat (if bool_decide (i < 0) then Z.max 0 (i + n) else Z.min i n).

(** [l[i:]] *)
Definition slice_from {A} (i : Z) (l : list A) : list A :=
  drop (slice_index i l) l.

(** [l[:i]] *)
Definition slice_to {A} (i : Z) (l : list A) : list A :=
  take (slice_index i l) l.

(** ** The data directory *)

(** What [DATA_DIR] holds for one of the two files: nothing, text that
    [json.load] rejects, or a JSON array. *)
Inductive file (A : Type) :=
| Absent
| Corrupt
| Stored (content : A).
Arguments Absent {A}.
Arguments Corrupt {A}.
Arguments Stored {A} content.

(** How the disk answers a [with open(path, 'w')] block: the write goes
    through, [open] raises (the file keeps its contents), or [json.dump]
    raises after [open] has truncated the file. *)
Inductive fault :=
| NoFault
| OpenFails
| DumpFails.

Definition write_file {A} (f : fault) (content : A) (old : file A) : file A :=
  match f with
  | NoFault => Stored content
  | OpenFails => old
  | DumpFails => Corrupt
  end.

Inductive effect :=
| CrawlerCalled (queries max_results_per_query : value)
| MentionsSaved (mentions : list mention)
| CrawlLogSaved (logs : list value).

Record world := World {
  mentions_file : file (list mention);
  crawl_log_file : file (list value);
  mentions_fault : fault;
  crawl_log_fault : fault;
  effects : list effect
}.

Definition perform (e : effect) (w : world) : world :=
  World (mentions_file w) (crawl_log_file w)
        (mentions_fault w) (crawl_log_fault w) (effects w ++ [e]).

Definition load_mentions (w : world) : list mention :=
  match mentions_file w with
  | Stored mentions => mentions
  | Corrupt => []
  | Absent => []
  end.

Definition save_mentions (mentions : list mention) (w : world) : world :=
  World (write_file (mentions_fault w) mentions (mentions_file w))
        (crawl_log_file w)
        (mentions_fault w) (crawl_log_fault w)
        (effects w ++ [MentionsSaved mentions]).

Definition load_crawl_log (w : world) : list value :=
  match crawl_log_file w with
  | Stored logs => logs
  | Corrupt => []
  | Absent => []
  end.

Definition save_crawl_log (log_entry : value) (w : world) : world :=
  let logs := load_crawl_log w in
  let logs := logs ++ [log_entry] in
  let logs := slice_from (-100) logs in
  World (mentions_file w)
        (write_file (crawl_log_fault w) logs (crawl_log_file w))
        (mentions_fault w) (crawl_log_fault w)
        (effects w ++ [CrawlLogSaved logs]).

(** ** Responses *)

Inductive response :=
| json_response (status : nat) (body : value)
    (* [jsonify(body), status] *)
| error_response (e : exn)
    (* [jsonify({'error': str(e)}), 500] *)
| crawl_failure (e : exn).
    (* [jsonify({'success': False, 'error': str(e)}), 500] *)

Definition not_found : response :=
  json_response 404 (VDict {[ "error" := VStr "Mention not found" ]}).

(** ** Handlers that only read *)

(** [GET /api/mentions]; the parameters are [request.args.get('status')],
    [request.args.get('location')] and [request.args.get('priority')],
    each [None] or a string; [None] and the empty string are falsy. *)
Definition get_mentions (status location priority : option string)
    (w : world) : response :=
  let mentions := load_mentions w in
  let mentions :=
    match status with
    | Some status =>
        if bool_decide (status ≠ "")
        then filter (λ m, py_eq_str (dict_get m "status") status) mentions
        else mentions
    | None => mentions
    end in
  let mentions :=
    match location with
    | Some location =>
        if bool_decide (location ≠ "") && bool_decide (location ≠ "all")
        then filter (λ m, py_eq_str (dict_get m "location") location)
                    mentions
        else mentions
    | None => mentions
    end in
  let mentions :=
    match priority with
    | Some priority =>
        if bool_decide (priority ≠ "") && bool_decide (priority ≠ "all")
        then filter (λ m, py_eq_str (dict_get m "priority") priority)
                    mentions
        else mentions
    | None => mentions
    end in
  json_response 200 (VList (VDict <$> mentions)).

(** [GET /api/crawl/log]; [limit] is
    [request.args.get('limit', 20, type=int)] before the default is
    applied: [None] when the parameter is missing or is not an integer. *)
Definition get_crawl_log (limit : option Z) (w : world) : response :=
  let logs := load_crawl_log w in
  let limit := default 20 limit in
  json_response 200 (VList (slice_from (- limit) logs)).

(** ** Deduplication of crawl results (the body of [trigger_crawl]) *)

Definition url_key (m : mention) : result key :=
  py_hash_key (dict_get m "url").

(** [{m.get('url') for m in existing_mentions}] *)
Fixpoint existing_urls (existing_mentions : list mention)
    : result (gset key) :=
  match existing_mentions with
  | [] => Ok ∅
  | m :: rest =>
      k ← url_key m;
      urls ← existing_urls rest;
      mret ({[ k ]} ∪ urls)
  end.

(** [[m for m in new_mentions if m.get('url') not in existing_urls]] *)
Fixpoint unique_new_mentions (urls : gset key) (new_mentions : list mention)
    : result (list mention) :=
  match new_mentions with
  | [] => Ok []
  | m :: rest =>
      k ← url_key m;
      unique ← unique_new_mentions urls rest;
      mret (if decide (k ∈ urls) then unique else m :: unique)
  end.

(** Lines 193-203: the pair [(all_mentions, unique_new_mentions)]. *)
Definition all_mentions (existing_mentions new_mentions : list mention)
    : result (list mention * list mention) :=
  urls ← existing_urls existing_mentions;
  unique ← unique_new_mentions urls new_mentions;
  mret (existing_mentions ++ unique, unique).

(** ** The request body of [POST /api/crawl] *)

Definition default_queries : value :=
  VList [ VStr "utility municipalization";
          VStr "public power initiative";
          VStr "municipal utility";
          VStr "franchise agreement utility" ].

(** [data.get(k, d)]; only dicts have [get] among JSON values. *)
Definition py_get (data : value) (k : string) (d : value) : result value :=
  match data with
  | VDict m => Ok (default d (m !! k))
  | _ => Raise AttributeError
  end.

(** [len(v)] is evaluated for the log line only: what matters is whether
    it raises. *)
Definition py_sized (v : value) : result unit :=
  match v with
  | VStr _ | VList _ | VDict _ => Ok ()
  | _ => Raise TypeError
  end.

(** The part of [trigger_crawl] before the crawler is called. *)
Definition crawl_parameters (request_json : value) : result (value * value) :=
  let data := if py_truthy request_json then request_json else VDict ∅ in
  queries ← py_get data "queries" default_queries;
  max_results_per_query ← py_get data "max_results_per_query" (VInt 10);
  _ ← py_sized queries;
  mret (queries, max_results_per_query).

Definition len {A} (l : list A) : value := VInt (Z.of_nat (length l)).

Definition crawl_log_entry (now : string) (queries : value)
    (new_mentions unique : list mention) : value :=
  VDict (<[ "timestamp" := VStr now ]>
        (<[ "queries" := queries ]>
        (<[ "total_found" := len new_mentions ]>
        (<[ "new_unique" := len unique ]>
        (<[ "duplicates" :=
              VInt (Z.of_nat (length new_mentions)
                    - Z.of_nat (length unique)) ]> ∅))))).

Definition crawl_summary (new_mentions unique : list mention) : value :=
  VDict (<[ "success" := VBool true ]>
        (<[ "new_mentions" := len unique ]>
        (<[ "total_found" := len new_mentions ]>
        (<[ "duplicates" :=
              VInt (Z.of_nat (length new_mentions)
                    - Z.of_nat (length unique)) ]>
        (<[ "mentions" := VList (VDict <$> slice_to 10 unique) ]> ∅))))).

(** ** Patching one mention (the loop of [update_mention]) *)

Definition allowed_fields : list string :=
  [ "status"; "tags"; "notes"; "priority" ].

Fixpoint is_substring (s t : string) : bool :=
  String.prefix s t ||
  match t with
  | EmptyString => false
  | String _ t' => is_substring s t'
  end.

(** [field in data] *)
Definition py_contains (data : value) (field : string) : result bool :=
  match data with
  | VDict d => Ok (bool_decide (is_Some (d !! field)))
  | VList l => Ok (existsb (λ v, py_eq_str v field) l)
  | VStr s => Ok (is_substring field s)
  | VNone | VBool _ | VInt _ => Raise TypeError
  end.

(** [data[field]] for a string [field] *)
Definition py_getitem (data : value) (field : string) : result value :=
  match data with
  | VDict d =>
      match d !! field with
      | Some v => Ok v
      | None => Raise KeyError
      end
  | _ => Raise TypeError
  end.

(** One turn of [for field in allowed_fields]. *)
Definition patch_field (data : value) (m : mention) (field : string)
    : result mention :=
  present ← py_contains data field;
  if (present : bool)
  then v ← py_getitem data field; mret (<[ field := v ]> m)
  else mret m.

Definition patch_fields (data : value) (fields : list string) (m : mention)
    : result mention :=
  foldl (λ acc field, m ← acc; patch_field data m field) (Ok m) fields.

Section Handlers.

(** Python's [repr] of lists and dicts (reached by [str] on a container);
    its quoting and escaping rules are left open. *)
Variable py_repr : value → string.

(** [crawler.run_crawl], the crawl collaborator. *)
Variable run_crawl : value → value → result (list mention).

(** [str(v)] *)
Definition py_str (v : value) : string :=
  match v with
  | VNone => "None"
  | VBool true => "True"
  | VBool false => "False"
  | VInt z => pretty z
  | VStr s => s
  | VList _ | VDict _ => py_repr v
  end.

(** [str(m.get('id')) == mention_id] *)
Definition has_id (mention_id : string) (m : mention) : Prop :=
  py_str (dict_get m "id") = mention_id.

#[global] Instance has_id_dec mention_id m : Decision (has_id mention_id m).
Proof. unfold has_id. apply _. Defined.

(** [PATCH /api/mentions/<mention_id>]; [data] is [request.json] and [now]
    is [datetime.now().isoformat()]. *)
Definition update_mention (now : string) (mention_id : string) (data : value)
    (w : world) : response * world :=
  let mentions := load_mentions w in
  match list_find (has_id mention_id) mentions with
  | Some (mention_index, m) =>
      match patch_fields data allowed_fields m with
      | Ok m =>
          let m := <[ "updated_at" := VStr now ]> m in
          let mentions := <[ mention_index := m ]> mentions in
          (json_response 200 (VDict m), save_mentions mentions w)
      | Raise e => (error_response e, w)
      end
  | None => (not_found, w)
  end.

(** [DELETE /api/mentions/<mention_id>] *)
Definition delete_mention (mention_id : string) (w : world)
    : response * world :=
  let mentions := load_mentions w in
  let original_count := length mentions in
  let mentions := filter (λ m, ¬ has_id mention_id m) mentions in
  if bool_decide (length mentions < original_count)%nat
  then (json_response 200
          (VDict {[ "message" := VStr "Mention deleted successfully" ]}),
        save_mentions mentions w)
  else (not_found, w).

(** [POST /api/crawl]; [request_json] is [request.json] and [now] is
    [datetime.now().isoformat()]. *)
Definition trigger_crawl (now : string) (request_json : value) (w : world)
    : response * world :=
  match crawl_parameters request_json with
  | Raise e => (crawl_failure e, w)
  | Ok (queries, max_results_per_query) =>
      let w := perform (CrawlerCalled queries max_results_per_query) w in
      match run_crawl queries max_results_per_query with
      | Raise e => (crawl_failure e, w)
      | Ok new_mentions =>
          let existing_mentions := load_mentions w in
          match all_mentions existing_mentions new_mentions with
          | Raise e => (crawl_failure e, w)
          | Ok (all, unique) =>
              let w := save_mentions all w in
              let log_entry :=
                crawl_log_entry now queries new_mentions unique in
              let w := save_crawl_log log_entry w in
              (json_response 200 (crawl_summary new_mentions unique), w)
          end
      end
  end.

End Handlers.

(** ** The remaining handlers *)

(** [GET /api/export]; [status_filter] is [request.args.get('status')] and
    [now] is [datetime.now().isoformat()]. *)
Definition export_data (now : string) (status_filter : option string)
    (w : world) : response :=
  let mentions := load_mentions w in
  let mentions :=
    match status_filter with
    | Some status_filter =>
        if bool_decide (status_filter ≠ "")
        then filter (λ m, py_eq_str (dict_get m "status") status_filter)
                    mentions
        else mentions
    | None => mentions
    end in
  json_response 200
    (VDict (<[ "exported_at" := VStr now ]>
           (<[ "count" := len mentions ]>
           (<[ "mentions" := VList (VDict <$> mentions) ]> ∅)))).

(** The [__main__] block, lines 322-324: an empty collection is written
    when [mentions.json] does not exist. *)
Definition initialize_mentions_file (w : world) : world :=
  match mentions_file w with
  | Absent => save_mentions [] w
  | Corrupt | Stored _ => w
  end.

(** A calendar date, as [datetime.date] compares them: year, month, day. *)
Definition date : Type := Z * Z * Z.

(** [set(m.get(field) for m in mentions if m.get(field))]: the set behind
    the [locations] and [sources] of [get_stats]. *)
Fixpoint distinct_values (field : string) (mentions : list mention)
    : result (gset key) :=
  match mentions with
  | [] => Ok ∅
  | m :: rest =>
      if py_truthy (dict_get m field)
      then k ← py_hash_key (dict_get m field);
           values ← distinct_values field rest;
           mret ({[ k ]} ∪ values)
      else distinct_values field rest
  end.

(** The body of the answer of [get_stats]. [locations] and [sources] are
    the sets the handler builds; the answer lists their elements, in the
    order in which Python enumerates a set, which is not represented. *)
Record statistics := Statistics {
  total : nat;
  pending : nat;
  approved : nat;
  deleted : nat;
  today_captured : nat;
  locations : gset key;
  sources : gset key
}.

(** [len([m for m in mentions if m.get('status') == status])] *)
Definition count_status (status : string) (mentions : list mention) : nat :=
  length (filter (λ m, py_eq_str (dict_get m "status") status) mentions).

Section OtherHandlers.

Variable py_repr : value → string.

(** [datetime.fromisoformat(s).date()] for a string [s], [None] when
    [fromisoformat] raises. *)
Variable fromisoformat_date : string → option date.

(** [GET /api/mentions/<mention_id>]; a dict is truthy when it is not
    empty. *)
Definition get_mention (mention_id : string) (w : world) : response :=
  let mentions := load_mentions w in
  match list_find (has_id py_repr mention_id) mentions with
  | Some (_, mention) =>
      if py_truthy (VDict mention)
      then json_response 200 (VDict mention)
      else not_found
  | None => not_found
  end.

(** The date the loop of [get_stats] compares with today, [None] when the
    [try] block raises: [fromisoformat] raises [TypeError] on what is not
    a string, and the default applies to a missing key only. *)
Definition capture_date (m : mention) : option date :=
  match m !! "capturedAt" with
  | None => fromisoformat_date "2000-01-01"
  | Some (VStr s) => fromisoformat_date s
  | Some _ => None
  end.

(** The loop counting today's captures. *)
Definition today_captures (today : date) (mentions : list mention) : nat :=
  foldl (λ count m,
           if decide (capture_date m = Some today) then S count else count)
        0%nat mentions.

(** [GET /api/stats]; [today] is [datetime.now().date()]. [Raise e]
    stands for the answer [jsonify({'error': str(e)}), 500]. *)
Definition get_stats (today : date) (w : world) : result statistics :=
  let mentions := load_mentions w in
  let total := length mentions in
  let pending := count_status "pending" mentions in
  let approved := count_status "approved" mentions in
  let deleted := count_status "deleted" mentions in
  let today_captured := today_captures today mentions in
  locations ← distinct_values "location" mentions;
  sources ← distinct_values "source" mentions;
  mret (Statistics total pending approved deleted today_captured
          locations sources).

End OtherHandlers.

(** ** Vocabulary of the statements *)

(** The last [n] elements of a list, oldest first. *)
Definition last_n {A} (n : nat) (l : list A) : list A :=
  drop (length l - n) l.

(** [save_crawl_log] once per entry, in order. *)
Definition append_all (entries : list value) (w : world) : world :=
  foldl (λ w log_entry, save_crawl_log log_entry w) w entries.

(** The restriction a query parameter puts on a field of [get_mentions]:
    [sentinel] tells whether the value ["all"] lifts the restriction. *)
Definition restricts (sentinel : bool) (p : option string) : option string :=
  match p with
  | Some s =>
      if bool_decide (s = "") then None
      else if sentinel && bool_decide (s = "all") then None
      else Some s
  | None => None
  end.

Definition field_matches (field : string) (r : option string) (m : mention)
    : Prop :=
  match r with
  | Some s => dict_get m field = VStr s
  | None => True
  end.

#[global] Instance field_matches_dec field r m :
  Decision (field_matches field r m).
Proof.
  destruct r as [s|]; simpl; [|apply _].
  destruct (dict_get m field) as [| | |t| |]; try (right; discriminate).
  destruct (decide (t = s)) as [->|]; [by left | right; congruence].
Defined.

(** The mentions [get_mentions] selects. *)
Definition selected (status location priority : option string) (m : mention)
    : Prop :=
  field_matches "status" (restricts false status) m ∧
  field_matches "location" (restricts true location) m ∧
  field_matches "priority" (restricts true priority) m.

#[global] Instance selected_dec status location priority m :
  Decision (selected status location priority m).
Proof. unfold selected. apply _. Defined.

#[global] Instance exn_eq_dec : EqDecision exn.
Proof. solve_decision. Defined.

#[global] Instance result_eq_dec `{EqDecision A} : EqDecision (result A).
Proof. solve_decision. Defined.

(** The values Python can hash among JSON values. *)
Definition hashable (v : value) : Prop :=
  match v with
  | VList _ | VDict _ => False
  | _ => True
  end.

Definition hashable_url (m : mention) : Prop :=
  hashable (dict_get m "url").

(** [m]'s url is among the urls of [existing]. *)
Definition known_url (existing : list mention) (m : mention) : Prop :=
  Exists (λ e, url_key e = url_key m) existing.

(** The mentions of [incoming] whose url is not among the urls of
    [existing], in the order of [incoming]. *)
Definition admitted (existing incoming : list mention) : list mention :=
  filter (λ m, ¬ known_url existing m) incoming.

(** The url of [m] as a dedup key, when [m] has a url other than [None]
    and the empty string. *)
Definition nonempty_url (m : mention) : option key :=
  match url_key m with
  | Ok KNone => None
  | Ok (KStr "") => None
  | Ok k => Some k
  | Raise _ => None
  end.

(** No two mentions of [l] have the same non-empty url. *)
Definition distinct_urls (l : list mention) : Prop :=
  NoDup (omap nonempty_url l).

(** What the loop of [update_mention] does with one allowed field when the
    request body is the JSON object [patch]. *)
Definition overwrite (patch : gmap string value) (m : mention)
    (field : string) : mention :=
  match patch !! field with
  | Some v => <[ field := v ]> m
  | None => m
  end.

(** The list a handler answers with, when the body of its answer is a
    list. *)
Definition listed (r : response) : list value :=
  match r with
  | json_response _ (VList l) => l
  | _ => []
  end.

(** The value of [field] in [m] can go into the sets of [get_stats]:
    it is skipped as falsy, or it is hashable. *)
Definition listable (field : string) (m : mention) : Prop :=
  py_truthy (dict_get m field) → hashable (dict_get m field).

(** ** Sample data *)

Definition mention_of (id url status : string) : mention :=
  <[ "id" := VStr id ]>
  (<[ "url" := VStr url ]>
  (<[ "status" := VStr status ]> ∅)).

Definition store_of (mentions : list mention) : world :=
  World (Stored mentions) Absent NoFault NoFault [].

(** A rendering of containers for the examples, in none of which an id
    is a list or a dict. *)
Definition sample_repr (v : value) : string :=
  match v with
  | VList _ => "[...]"
  | _ => "{...}"
  end.

(** A crawler that cannot reach its search service. *)
Definition failing_crawl (queries cap : value) : result (list mention) :=
  Raise (Raised "search API unreachable").

(** A crawler that finds the same candidates whatever it is asked. *)
Definition fixed_crawl (found : list mention) (queries cap : value)
    : result (list mention) :=
  Ok found.

Definition sample_existing : list mention :=
  [ mention_of "1" "https://a.example/1" "pending";
    mention_of "2" "https://a.example/2" "approved" ].

Definition sample_incoming : list mention :=
  [ mention_of "3" "https://a.example/2" "pending";
    mention_of "4" "https://a.example/3" "pending" ].

(** Two candidates of one crawl with the same url. *)
Definition found_twice : list mention :=
  [ mention_of "5" "https://b.example/x" "pending";
    mention_of "6" "https://b.example/x" "pending" ].

(** Two stored mentions with the same id. *)
Definition same_id : list mention :=
  [ mention_of "7" "https://a.example/1" "pending";
    mention_of "7" "https://a.example/2" "approved" ].

Definition without_url (id : string) : mention :=
  <[ "id" := VStr id ]> ∅.

Definition sample_patch : gmap string value :=
  <[ "priority" := VStr "high" ]>
  (<[ "url" := VStr "https://c.example/other" ]> ∅).

Definition empty_store : world :=
  World Absent Absent NoFault NoFault [].

Definition sample_entries : list value :=
  VInt <$> seqZ 1 101.

(** A mention whose url is a list. *)
Definition list_url_mention : mention :=
  <[ "id" := VStr "9" ]>
  (<[ "url" := VList [VStr "https://a.example/9"] ]> ∅).

(** A mention whose location is a list and whose capture date is a
    number. *)
Definition list_location_mention : mention :=
  <[ "id" := VStr "10" ]>
  (<[ "location" := VList [VStr "Boulder"; VStr "Denver"] ]>
  (<[ "capturedAt" := VInt 20240501 ]> ∅)).

(** A mention with a location, a source and a capture date. *)
Definition located_mention (id location captured_at : string) : mention :=
  <[ "id" := VStr id ]>
  (<[ "status" := VStr "pending" ]>
  (<[ "location" := VStr location ]>
  (<[ "source" := VStr "news" ]>
  (<[ "capturedAt" := VStr captured_at ]> ∅)))).

Definition sample_located : list mention :=
  [ located_mention "11" "Boulder" "2024-05-01T09:30:00";
    located_mention "12" "" "2024-04-30T18:00:00" ].

(** A reading of dates for the examples, defined on the strings they
    use. *)
Definition sample_fromisoformat (s : string) : option date :=
  if bool_decide (s = "2024-05-01T09:30:00") then Some (2024, 5, 1)
  else if bool_decide (s = "2024-04-30T18:00:00") then Some (2024, 4, 30)
  else if bool_decide (s = "2000-01-01") then Some (2000, 1, 1)
  else None.

(** Three candidates of one crawl: two carry a url that [sample_existing]
    already has, one a new url. *)
Definition twice_known : list mention :=
  [ mention_of "13" "https://a.example/2" "pending";
    mention_of "14" "https://a.example/2" "pending";
    mention_of "15" "https://a.example/4" "pending" ].

(** A world whose crawl log holds 100 entries and whose disk answers
    writes of the log with [f]. *)
Definition full_log_store (f : fault) : world :=
  World Absent (Stored (VInt <$> seqZ 1 100)) NoFault f [].

(** Settles a decidable proposition about sample data by evaluation. *)
Ltac by_evaluation :=
  match goal with
  | |- ?P => apply (@bool_decide_unpack P _); vm_compute; exact I
  end.

(** * Properties *)

(** ** Slices and the last entries of a list *)

Lemma slice_from_0 {A} (l : list A) : slice_from 0 l = l.
Proof.
  unfold slice_from, slice_index. rewrite bool_decide_false by lia.
  by replace (Z.to_nat _) with 0%nat by lia.
Qed.

Lemma slice_from_neg {A} (n : nat) (l : list A) :
  (0 < n)%nat → slice_from (- Z.of_nat n) l = last_n n l.
Proof.
  intros Hn. unfold slice_from, slice_index, last_n.
  rewrite bool_decide_true by lia. f_equal. lia.
Qed.

Lemma last_n_length {A} (n : nat) (l : list A) :
  length (last_n n l) = (length l `min` n)%nat.
Proof. unfold last_n. rewrite length_drop. lia. Qed.

Lemma last_n_suffix {A} (n : nat) (l : list A) : last_n n l `suffix_of` l.
Proof. apply suffix_drop. Qed.

Lemma last_n_app_l {A} (n : nat) (l k : list A) :
  last_n n (last_n n l ++ k) = last_n n (l ++ k).
Proof.
  unfold last_n.
  rewrite <- (drop_app_le l k (length l - n)) by lia.
  rewrite drop_drop, length_drop, !length_app. f_equal. lia.
Qed.

(** ** The crawl log *)

Lemma save_crawl_log_fault log_entry w :
  crawl_log_fault (save_crawl_log log_entry w) = crawl_log_fault w.
Proof. reflexivity. Qed.

Lemma load_save_crawl_log log_entry w :
  crawl_log_fault w = NoFault →
  load_crawl_log (save_crawl_log log_entry w)
  = last_n 100 (load_crawl_log w ++ [log_entry]).
Proof.
  intros Hfault. unfold save_crawl_log, load_crawl_log at 1. simpl.
  rewrite Hfault. simpl. apply (slice_from_neg 100). lia.
Qed.

Lemma append_all_snoc entries log_entry w :
  append_all (entries ++ [log_entry]) w
  = save_crawl_log log_entry (append_all entries w).
Proof. unfold append_all. by rewrite foldl_snoc. Qed.

Lemma append_all_fault entries w :
  crawl_log_fault (append_all entries w) = crawl_log_fault w.
Proof.
  induction entries as [|log_entry entries IH] using rev_ind; [done|].
  by rewrite append_all_snoc, save_crawl_log_fault.
Qed.

Lemma load_append_all entries w :
  crawl_log_fault w = NoFault →
  entries ≠ [] →
  load_crawl_log (append_all entries w)
  = last_n 100 (load_crawl_log w ++ entries).
Proof.
  intros Hfault.
  induction entries as [|log_entry entries IH] using rev_ind; [done|].
  intros _. rewrite append_all_snoc.
  rewrite load_save_crawl_log by by rewrite append_all_fault.
  destruct entries as [|first entries]; [done|].
  rewrite IH by done. by rewrite last_n_app_l, (assoc_L (++)).
Qed.

(** C5. Whatever the log file holds and whatever is appended, after each
    call of [save_crawl_log] whose write goes through the stored log has
    at most 100 entries; and more than 100 appends to an empty log leave
    exactly the last 100 appended entries, in the order of their
    appending (the front of the sequence is dropped). *)
Theorem crawl_log_retention (w : world) (entries : list value) :
  crawl_log_fault w = NoFault →
  (∀ n, (0 < n ≤ length entries)%nat →
     (length (load_crawl_log (append_all (take n entries) w)) ≤ 100)%nat) ∧
  (load_crawl_log w = [] →
   (100 < length entries)%nat →
   load_crawl_log (append_all entries w)
   = drop (length entries - 100) entries ∧
   length (load_crawl_log (append_all entries w)) = 100%nat).
Proof.
  intros Hfault. split.
  - intros n Hn. rewrite load_append_all; [|done|].
    + rewrite last_n_length. lia.
    + intros Hnil%(f_equal length). rewrite length_take in Hnil.
      simpl in Hnil. lia.
  - intros Hempty Hmany.
    rewrite load_append_all; [|done|by intros ->; simpl in Hmany; lia].
    rewrite Hempty. simpl. split; [done|].
    fold (last_n 100 entries). rewrite last_n_length. lia.
Qed.

(** C9. With [limit=0] the handler answers with the whole stored log,
    since [logs[-0:]] is [logs[0:]]; with a positive limit it answers with
    the last [limit] entries of the log (all of them when there are
    fewer), oldest first, hence with at most [limit] entries. *)
Theorem get_crawl_log_window (w : world) :
  get_crawl_log (Some 0) w = json_response 200 (VList (load_crawl_log w)) ∧
  ∀ limit : Z, 0 < limit →
    get_crawl_log (Some limit) w
    = json_response 200
        (VList (last_n (Z.to_nat limit) (load_crawl_log w))) ∧
    last_n (Z.to_nat limit) (load_crawl_log w)
      `suffix_of` load_crawl_log w ∧
    Z.of_nat (length (last_n (Z.to_nat limit) (load_crawl_log w))) ≤ limit.
Proof.
  split.
  - unfold get_crawl_log. simpl. by rewrite slice_from_0.
  - intros limit Hlimit. split; [|split].
    + unfold get_crawl_log. simpl.
      rewrite <- (Z2Nat.id limit) at 1 by lia.
      rewrite slice_from_neg by lia. done.
    + apply last_n_suffix.
    + rewrite last_n_length. lia.
Qed.

(** ** Listing with filters *)

Lemma filter_all {A} (P : A → Prop) `{∀ x, Decision (P x)} (l : list A) :
  (∀ x, x ∈ l → P x) → filter P l = l.
Proof.
  induction l as [|x l IH]; intros HP; [done|].
  rewrite filter_cons_True by (apply HP; left).
  f_equal. apply IH. intros y Hy. apply HP. by right.
Qed.

Lemma py_eq_str_spec v s : py_eq_str v s ↔ v = VStr s.
Proof.
  destruct v; simpl; try (split; [intros [] | discriminate]).
  rewrite bool_decide_spec. split; [by intros -> | by intros [= ->]].
Qed.

Lemma filter_status (p : option string) (l : list mention) :
  match p with
  | Some s =>
      if bool_decide (s ≠ "")
      then filter (λ m, py_eq_str (dict_get m "status") s) l
      else l
  | None => l
  end
  = filter (field_matches "status" (restricts false p)) l.
Proof.
  destruct p as [s|]; simpl; [|by rewrite filter_all].
  destruct (decide (s = "")) as [->|Hs].
  { simpl. by rewrite filter_all. }
  rewrite (bool_decide_true (s ≠ "")), (bool_decide_false (s = "")) by done.
  apply list_filter_iff. intros m. apply py_eq_str_spec.
Qed.

Lemma filter_with_sentinel (field : string) (p : option string)
    (l : list mention) :
  match p with
  | Some s =>
      if bool_decide (s ≠ "") && bool_decide (s ≠ "all")
      then filter (λ m, py_eq_str (dict_get m field) s) l
      else l
  | None => l
  end
  = filter (field_matches field (restricts true p)) l.
Proof.
  destruct p as [s|]; simpl; [|by rewrite filter_all].
  destruct (decide (s = "")) as [->|Hs].
  { simpl. by rewrite filter_all. }
  rewrite (bool_decide_true (s ≠ "")), (bool_decide_false (s = "")) by done.
  destruct (decide (s = "all")) as [->|Hall]; simpl.
  { by rewrite filter_all. }
  rewrite (bool_decide_true (s ≠ "all")), (bool_decide_false (s = "all"))
    by done.
  apply list_filter_iff. intros m. apply py_eq_str_spec.
Qed.

(** C3 (as amended). The list operation answers with exactly the mentions
    whose fields equal every restricting parameter, in the order of the
    stored collection. A missing parameter and an empty one restrict
    nothing; the value ["all"] restricts nothing for [location] and
    [priority], while a [status] of ["all"] is compared with the field
    like any other value. *)
Theorem get_mentions_selects (status location priority : option string)
    (w : world) :
  get_mentions status location priority w
  = json_response 200
      (VList (VDict <$>
        filter (selected status location priority) (load_mentions w))).
Proof.
  unfold get_mentions. simpl.
  rewrite filter_status, !filter_with_sentinel, !list_filter_filter.
  do 3 f_equal. apply list_filter_iff. intros m. unfold selected. tauto.
Qed.

(** C3 fails as stated: with [status=all] a pending mention is filtered
    out, where the claim has the whole collection returned. *)
Lemma get_mentions_status_all_restricts :
  get_mentions (Some "all") None None
    (store_of [mention_of "1" "https://a.example/1" "pending"])
  = json_response 200 (VList []) ∧
  get_mentions (Some "all") None None
    (store_of [mention_of "1" "https://a.example/1" "pending"])
  ≠ json_response 200
      (VList (VDict <$>
        load_mentions
          (store_of [mention_of "1" "https://a.example/1" "pending"]))).
Proof.
  assert (get_mentions (Some "all") None None
            (store_of [mention_of "1" "https://a.example/1" "pending"])
          = json_response 200 (VList [])) as ->; [|done].
  unfold get_mentions.
  change (load_mentions (store_of ?l)) with l.
  rewrite bool_decide_true by done.
  rewrite filter_cons_False, filter_nil; [done|].
  by vm_compute.
Qed.

(** ** Deduplication *)

Lemma url_key_hashable (m : mention) :
  hashable_url m → ∃ k, url_key m = Ok k.
Proof.
  unfold hashable_url, url_key.
  destruct (dict_get m "url"); simpl; by eauto.
Qed.

Lemma existing_urls_spec (existing : list mention) :
  Forall hashable_url existing →
  ∃ urls, existing_urls existing = Ok urls ∧
    ∀ k, k ∈ urls ↔ ∃ e, e ∈ existing ∧ url_key e = Ok k.
Proof.
  induction 1 as [|m rest Hm _ (urls & Hurls & Hin)]; simpl.
  - exists ∅. split; [done|]. intros k. split; [set_solver|].
    by intros (e & ?%elem_of_nil & _).
  - destruct (url_key_hashable m Hm) as [k Hk]. rewrite Hk, Hurls. simpl.
    eexists. split; [done|]. intros k'.
    rewrite elem_of_union, elem_of_singleton, Hin. split.
    + intros [->|(e & He & Hke)].
      * exists m. split; [left|done].
      * exists e. split; [by right|done].
    + intros (e & [->|He]%elem_of_cons & Hke).
      * left. congruence.
      * right. eauto.
Qed.

Lemma unique_new_mentions_spec (existing : list mention) (urls : gset key)
    (incoming : list mention) :
  (∀ k, k ∈ urls ↔ ∃ e, e ∈ existing ∧ url_key e = Ok k) →
  Forall hashable_url incoming →
  unique_new_mentions urls incoming = Ok (admitted existing incoming).
Proof.
  intros Hurls. unfold admitted.
  induction 1 as [|m rest Hm _ IH]; simpl; [done|].
  destruct (url_key_hashable m Hm) as [k Hk]. rewrite Hk, IH. simpl.
  f_equal. destruct (decide (k ∈ urls)) as [Hin|Hin].
  - rewrite filter_cons_False; [done|]. intros Hnot. apply Hnot.
    apply Hurls in Hin as (e & He & Hke).
    apply Exists_exists. exists e. split; [done|congruence].
  - rewrite filter_cons_True; [done|].
    intros (e & He & Hke)%Exists_exists. apply Hin, Hurls.
    exists e. split; [done|congruence].
Qed.

Lemma all_mentions_spec (existing incoming : list mention) :
  Forall hashable_url existing →
  Forall hashable_url incoming →
  all_mentions existing incoming
  = Ok (existing ++ admitted existing incoming, admitted existing incoming).
Proof.
  intros Hexisting Hincoming. unfold all_mentions.
  destruct (existing_urls_spec existing Hexisting) as (urls & -> & Hurls).
  simpl. by rewrite (unique_new_mentions_spec existing).
Qed.

Lemma url_key_cases (m : mention) :
  (hashable_url m ∧ ∃ k, url_key m = Ok k) ∨
  (¬ hashable_url m ∧ url_key m = Raise TypeError).
Proof.
  unfold hashable_url, url_key.
  destruct (dict_get m "url"); simpl; by eauto.
Qed.

Lemma existing_urls_unhashable (existing : list mention) :
  Exists (λ m, ¬ hashable_url m) existing →
  existing_urls existing = Raise TypeError.
Proof.
  induction 1 as [m rest Hm|m rest _ IH]; simpl.
  - by destruct (url_key_cases m) as [[? _]|[_ ->]].
  - rewrite IH. by destruct (url_key_cases m) as [[_ [k ->]]|[_ ->]].
Qed.

Lemma unique_new_mentions_unhashable (urls : gset key)
    (incoming : list mention) :
  Exists (λ m, ¬ hashable_url m) incoming →
  unique_new_mentions urls incoming = Raise TypeError.
Proof.
  induction 1 as [m rest Hm|m rest _ IH]; simpl.
  - by destruct (url_key_cases m) as [[? _]|[_ ->]].
  - rewrite IH. by destruct (url_key_cases m) as [[_ [k ->]]|[_ ->]].
Qed.

(** A url that is a list or a dict, in the store or among the candidates,
    makes the merge raise: the hypotheses on urls below cannot be
    dropped. *)
Lemma all_mentions_unhashable (existing incoming : list mention) :
  Exists (λ m, ¬ hashable_url m) (existing ++ incoming) →
  all_mentions existing incoming = Raise TypeError.
Proof.
  intros [Hexisting|Hincoming]%Exists_app; unfold all_mentions.
  - by rewrite existing_urls_unhashable.
  - destruct (existing_urls existing) as [urls|e] eqn:Hurls; simpl.
    + by rewrite unique_new_mentions_unhashable.
    + clear Hincoming. revert e Hurls.
      induction existing as [|m rest IH]; intros e; simpl; [done|].
      destruct (url_key_cases m) as [[_ [k ->]]|[_ ->]]; simpl.
      * destruct (existing_urls rest); simpl; [done|]. intros [= <-].
        by rewrite (IH e0).
      * congruence.
Qed.

Lemma filter_none {A} (P : A → Prop) `{∀ x, Decision (P x)} (l : list A) :
  (∀ x, x ∈ l → ¬ P x) → filter P l = [].
Proof.
  induction l as [|x l IH]; intros HP; [done|].
  rewrite filter_cons_False by (apply HP; left).
  apply IH. intros y Hy. apply HP. by right.
Qed.

Lemma admitted_elem_of (existing incoming : list mention) (m : mention) :
  m ∈ admitted existing incoming ↔ m ∈ incoming ∧ ¬ known_url existing m.
Proof. unfold admitted. rewrite list_elem_of_filter. tauto. Qed.

Lemma admitted_hashable (existing incoming : list mention) :
  Forall hashable_url incoming →
  Forall hashable_url (admitted existing incoming).
Proof.
  rewrite !Forall_forall. intros Hall m [Hm _]%admitted_elem_of. auto.
Qed.

Lemma admitted_again (existing incoming : list mention) :
  admitted (existing ++ admitted existing incoming) incoming = [].
Proof.
  apply filter_none. intros m Hm Hfresh. apply Hfresh.
  unfold known_url. rewrite Exists_app.
  destruct (decide (known_url existing m)) as [Hknown|Hnew]; [by left|].
  right. apply Exists_exists. exists m. split; [|done].
  by apply admitted_elem_of.
Qed.

Lemma nonempty_url_Some (m : mention) (k : key) :
  nonempty_url m = Some k → url_key m = Ok k.
Proof.
  unfold nonempty_url. destruct (url_key m) as [[| |[|]]|]; congruence.
Qed.

Lemma sublist_omap {A B} (f : A → option B) (l1 l2 : list A) :
  l1 `sublist_of` l2 → omap f l1 `sublist_of` omap f l2.
Proof.
  induction 1 as [|x l1 l2 _ IH|x l1 l2 _ IH]; simpl.
  - done.
  - destruct (f x); [by constructor|done].
  - destruct (f x); [by constructor|done].
Qed.

Lemma distinct_urls_admitted (existing incoming : list mention) :
  distinct_urls incoming →
  distinct_urls (admitted existing incoming).
Proof.
  unfold distinct_urls. intros Hincoming.
  eapply sublist_NoDup; [done|]. apply sublist_omap, sublist_filter.
Qed.

Lemma distinct_urls_merge (existing incoming : list mention) :
  distinct_urls existing →
  distinct_urls (existing ++ admitted existing incoming)
  ↔ distinct_urls (admitted existing incoming).
Proof.
  unfold distinct_urls. intros Hexisting.
  rewrite omap_app, NoDup_app. split; [tauto|].
  intros Hadmitted. split; [done|]. split; [|done].
  intros k (e & He & Hke)%list_elem_of_omap (m & Hm & Hkm)%list_elem_of_omap.
  apply admitted_elem_of in Hm as [_ Hnew]. apply Hnew.
  apply Exists_exists. exists e. split; [done|].
  apply nonempty_url_Some in Hke, Hkm. congruence.
Qed.

(** ** Ingestion *)

Section Ingestion.

Context (run_crawl : value → value → result (list mention)).

Lemma trigger_crawl_success now request_json w queries cap found all unique :
  crawl_parameters request_json = Ok (queries, cap) →
  run_crawl queries cap = Ok found →
  all_mentions (load_mentions w) found = Ok (all, unique) →
  trigger_crawl run_crawl now request_json w
  = (json_response 200 (crawl_summary found unique),
     save_crawl_log (crawl_log_entry now queries found unique)
       (save_mentions all (perform (CrawlerCalled queries cap) w))).
Proof.
  intros Hparams Hcrawl Hmerge. unfold trigger_crawl.
  rewrite Hparams, Hcrawl.
  change (load_mentions (perform _ w)) with (load_mentions w).
  by rewrite Hmerge.
Qed.

Lemma load_mentions_saved mentions log_entry w :
  mentions_fault w = NoFault →
  load_mentions (save_crawl_log log_entry (save_mentions mentions w))
  = mentions.
Proof.
  intros Hfault. unfold load_mentions, save_crawl_log, save_mentions. simpl.
  by rewrite Hfault.
Qed.

(** C1. When every url is hashable, the merge of [trigger_crawl] yields
    the existing mentions followed by exactly the incoming mentions whose
    url is not among the existing urls, each part in its original order;
    and that list is what a crawl returning [incoming] leaves in the
    store. *)
Theorem merge_appends_unseen_urls (existing incoming : list mention) :
  Forall hashable_url existing →
  Forall hashable_url incoming →
  all_mentions existing incoming
  = Ok (existing ++ filter (λ m, ¬ known_url existing m) incoming,
        filter (λ m, ¬ known_url existing m) incoming) ∧
  ∀ now request_json queries cap w,
    load_mentions w = existing →
    mentions_fault w = NoFault →
    crawl_parameters request_json = Ok (queries, cap) →
    run_crawl queries cap = Ok incoming →
    load_mentions (trigger_crawl run_crawl now request_json w).2
    = existing ++ filter (λ m, ¬ known_url existing m) incoming.
Proof.
  intros Hexisting Hincoming.
  pose proof (all_mentions_spec existing incoming Hexisting Hincoming)
    as Hmerge.
  split; [done|].
  intros now request_json queries cap w Hload Hfault Hparams Hcrawl.
  rewrite (trigger_crawl_success _ _ _ _ _ _ _ _ Hparams Hcrawl)
    by (rewrite Hload; exact Hmerge).
  simpl. by apply load_mentions_saved.
Qed.

(** C2 (as amended). When the existing mentions have pairwise distinct
    non-empty urls and, among the incoming candidates, those whose url is
    not already an existing url have pairwise distinct non-empty urls, no
    two mentions of the merged collection share a non-empty url; and
    this condition on the candidates is the only one: the merged
    collection has that property exactly when the admitted candidates
    have it. *)
Theorem merge_keeps_urls_distinct (existing incoming : list mention) :
  Forall hashable_url existing →
  Forall hashable_url incoming →
  distinct_urls existing →
  ∃ merged unique,
    all_mentions existing incoming = Ok (merged, unique) ∧
    unique = filter (λ m, ¬ known_url existing m) incoming ∧
    (distinct_urls unique → distinct_urls merged) ∧
    (distinct_urls merged → distinct_urls unique).
Proof.
  intros Hexisting Hincoming Hdistinct.
  eexists _, _. split; [by apply all_mentions_spec|]. split; [done|].
  split; by apply distinct_urls_merge.
Qed.

(** C4. Merging the same candidates into the result of a first merge
    admits none of them and returns that result unchanged; accordingly a
    second crawl that returns the same candidates reports no new mention
    and stores the same collection. *)
Theorem second_merge_adds_nothing (existing incoming : list mention) :
  Forall hashable_url existing →
  Forall hashable_url incoming →
  ∃ merged unique,
    all_mentions existing incoming = Ok (merged, unique) ∧
    all_mentions merged incoming = Ok (merged, []) ∧
    ∀ now now' request_json queries cap w,
      load_mentions w = existing →
      mentions_fault w = NoFault →
      crawl_parameters request_json = Ok (queries, cap) →
      run_crawl queries cap = Ok incoming →
      let w1 := (trigger_crawl run_crawl now request_json w).2 in
      load_mentions w1 = merged ∧
      (trigger_crawl run_crawl now' request_json w1).1
      = json_response 200 (crawl_summary incoming []) ∧
      load_mentions (trigger_crawl run_crawl now' request_json w1).2
      = merged.
Proof.
  intros Hexisting Hincoming.
  assert (all_mentions (existing ++ admitted existing incoming) incoming
          = Ok (existing ++ admitted existing incoming, [])) as Hsecond.
  { rewrite all_mentions_spec, admitted_again, (right_id_L [] (++));
      [done| |done].
    apply Forall_app. split; [done|]. by apply admitted_hashable. }
  eexists _, _. split; [by apply all_mentions_spec|]. split; [done|].
  intros now now' request_json queries cap w Hload Hfault Hparams Hcrawl w1.
  assert (load_mentions w1 = existing ++ admitted existing incoming) as Hw1.
  { unfold w1.
    rewrite (trigger_crawl_success _ _ _ _ _ _ _ _ Hparams Hcrawl)
      by (rewrite Hload; by apply all_mentions_spec).
    simpl. by apply load_mentions_saved. }
  assert (mentions_fault w1 = NoFault) as Hfault1.
  { unfold w1.
    rewrite (trigger_crawl_success _ _ _ _ _ _ _ _ Hparams Hcrawl)
      by (rewrite Hload; by apply all_mentions_spec).
    done. }
  split; [done|].
  rewrite (trigger_crawl_success _ _ _ _ _ _ _ _ Hparams Hcrawl)
    by (rewrite Hw1; exact Hsecond).
  simpl. split; [done|]. by apply load_mentions_saved.
Qed.

(** C10. A missing url and an empty url are dedup keys like any other:
    when an existing mention has no url field, a candidate without a url
    field is not admitted, and when an existing mention has the empty
    string as url, a candidate whose url is the empty string is not
    admitted. *)
Theorem empty_urls_are_dedup_keys (existing incoming : list mention)
    (e c : mention) :
  Forall hashable_url existing →
  Forall hashable_url incoming →
  e ∈ existing →
  (e !! "url" = None ∧ c !! "url" = None) ∨
  (e !! "url" = Some (VStr "") ∧ c !! "url" = Some (VStr "")) →
  ∃ merged unique,
    all_mentions existing incoming = Ok (merged, unique) ∧
    merged = existing ++ unique ∧
    c ∉ unique.
Proof.
  intros Hexisting Hincoming He Hurl.
  eexists _, _. split; [by apply all_mentions_spec|]. split; [done|].
  intros [_ Hnew]%admitted_elem_of. apply Hnew.
  apply Exists_exists. exists e. split; [done|].
  unfold url_key, dict_get. by destruct Hurl as [[-> ->]|[-> ->]].
Qed.

(** C8. When the crawler raises [e], [trigger_crawl] answers with the
    failure response built from [e] (its description and
    ['success': False]); the crawler has been called once and is not
    called again, neither file has been touched and no save has been
    attempted. *)
Theorem crawler_exception_aborts_ingestion now request_json queries cap e w :
  crawl_parameters request_json = Ok (queries, cap) →
  run_crawl queries cap = Raise e →
  (trigger_crawl run_crawl now request_json w).1 = crawl_failure e ∧
  mentions_file (trigger_crawl run_crawl now request_json w).2
  = mentions_file w ∧
  crawl_log_file (trigger_crawl run_crawl now request_json w).2
  = crawl_log_file w ∧
  effects (trigger_crawl run_crawl now request_json w).2
  = effects w ++ [CrawlerCalled queries cap].
Proof.
  intros Hparams Hcrawl. unfold trigger_crawl.
  by rewrite Hparams, Hcrawl.
Qed.

End Ingestion.

(** ** Update and delete *)

Lemma patch_field_dict (patch : gmap string value) (m : mention)
    (field : string) :
  patch_field (VDict patch) m field = Ok (overwrite patch m field).
Proof.
  unfold patch_field, overwrite, py_contains, py_getitem.
  by destruct (patch !! field) as [v|].
Qed.

Lemma patch_fields_dict (patch : gmap string value) (fields : list string)
    (m : mention) :
  patch_fields (VDict patch) fields m = Ok (foldl (overwrite patch) m fields).
Proof.
  unfold patch_fields.
  induction fields as [|field fields IH] using rev_ind; [done|].
  rewrite !foldl_snoc, IH. simpl. apply patch_field_dict.
Qed.

Lemma lookup_overwrite_fields (patch : gmap string value)
    (fields : list string) (m : mention) (k : string) :
  foldl (overwrite patch) m fields !! k
  = if decide (k ∈ fields)
    then match patch !! k with Some v => Some v | None => m !! k end
    else m !! k.
Proof.
  induction fields as [|field fields IH] using rev_ind.
  { cbn [foldl].
    destruct (decide (k ∈ [])) as [H|]; [by apply elem_of_nil in H|done]. }
  rewrite foldl_snoc. unfold overwrite at 1.
  destruct (decide (k = field)) as [->|Hne].
  - rewrite decide_True by (apply elem_of_app; right; left).
    destruct (patch !! field) as [v|] eqn:Hfield.
    + by rewrite lookup_insert_eq.
    + rewrite IH. by destruct (decide _).
  - assert (k ∈ fields ++ [field] ↔ k ∈ fields) as Hin.
    { rewrite elem_of_app, list_elem_of_singleton. tauto. }
    destruct (patch !! field) as [v|].
    + rewrite lookup_insert_ne by done. rewrite IH.
      destruct (decide (k ∈ fields)).
      * by rewrite decide_True by by apply Hin.
      * by rewrite decide_False by by rewrite Hin.
    + rewrite IH. destruct (decide (k ∈ fields)).
      * by rewrite decide_True by by apply Hin.
      * by rewrite decide_False by by rewrite Hin.
Qed.

Lemma allowed_field_not_updated_at (f : string) :
  f ∈ allowed_fields → f ≠ "updated_at".
Proof.
  unfold allowed_fields. rewrite !elem_of_cons, elem_of_nil.
  intros [->|[->|[->|[->|[]]]]]; discriminate.
Qed.

Lemma load_save_mentions mentions w :
  mentions_fault w = NoFault →
  load_mentions (save_mentions mentions w) = mentions.
Proof.
  intros Hfault. unfold load_mentions, save_mentions. simpl.
  by rewrite Hfault.
Qed.

Lemma filter_unique_delete {A} (P : A → Prop) `{∀ x, Decision (P x)}
    (l : list A) (i : nat) (x : A) :
  l !! i = Some x →
  P x →
  (∀ j y, j ≠ i → l !! j = Some y → ¬ P y) →
  filter (λ y, ¬ P y) l = delete i l.
Proof.
  revert i. induction l as [|a l IH]; intros i Hi Hx Hothers; [done|].
  destruct i as [|i]; simpl in *.
  - injection Hi as ->. rewrite filter_cons_False by tauto.
    apply filter_all. intros y [j Hj]%list_elem_of_lookup.
    by apply (Hothers (S j)).
  - rewrite filter_cons_True by (by apply (Hothers 0%nat)).
    f_equal. apply (IH i); [done..|].
    intros j y Hj. apply (Hothers (S j)). lia.
Qed.

Section UpdateDelete.

Context (py_repr : value → string).

Lemma delete_mention_found (mention_id : string) (w : world) :
  (∃ m, m ∈ load_mentions w ∧ has_id py_repr mention_id m) →
  delete_mention py_repr mention_id w
  = (json_response 200
       (VDict {[ "message" := VStr "Mention deleted successfully" ]}),
     save_mentions
       (filter (λ m, ¬ has_id py_repr mention_id m) (load_mentions w)) w).
Proof.
  intros (m & Hm & Hid). unfold delete_mention.
  rewrite bool_decide_true; [done|].
  apply (length_filter_lt _ _ m); [done|tauto].
Qed.

(** C6. When some mention has the given id, [update_mention] with a JSON
    object as body succeeds on the first such mention [m]: the answer is
    the mention [m'] that takes from the patch those of [status], [tags],
    [notes] and [priority] that the patch has, has [updated_at] set to
    the current time and agrees with [m] on every other field, whatever
    else the patch holds; the collection handed to [save_mentions] is the
    stored one with [m'] in the place of [m], every other mention as it
    was. *)
Theorem update_mention_touches_allowed_fields (now mention_id : string)
    (patch : gmap string value) (w : world) :
  (∃ m0, m0 ∈ load_mentions w ∧ has_id py_repr mention_id m0) →
  ∃ (i : nat) (m m' : mention),
    load_mentions w !! i = Some m ∧
    has_id py_repr mention_id m ∧
    (∀ j m0, load_mentions w !! j = Some m0 → (j < i)%nat →
       ¬ has_id py_repr mention_id m0) ∧
    update_mention py_repr now mention_id (VDict patch) w
    = (json_response 200 (VDict m'),
       save_mentions (<[ i := m' ]> (load_mentions w)) w) ∧
    (∀ f, f ∈ allowed_fields →
       m' !! f = match patch !! f with Some v => Some v | None => m !! f end) ∧
    m' !! "updated_at" = Some (VStr now) ∧
    (∀ k, k ∉ allowed_fields → k ≠ "updated_at" → m' !! k = m !! k) ∧
    <[ i := m' ]> (load_mentions w) !! i = Some m' ∧
    (∀ j, j ≠ i →
       <[ i := m' ]> (load_mentions w) !! j = load_mentions w !! j) ∧
    length (<[ i := m' ]> (load_mentions w)) = length (load_mentions w) ∧
    (mentions_fault w = NoFault →
     load_mentions (update_mention py_repr now mention_id (VDict patch) w).2
     = <[ i := m' ]> (load_mentions w)).
Proof.
  intros (m0 & Hm0 & Hid0).
  destruct (list_find_elem_of (has_id py_repr mention_id) _ m0 Hm0 Hid0)
    as [[i m] Hfind].
  pose proof Hfind as (Hi & Hid & Hfirst)%list_find_Some.
  assert (update_mention py_repr now mention_id (VDict patch) w
          = (json_response 200
               (VDict (<[ "updated_at" := VStr now ]>
                        (foldl (overwrite patch) m allowed_fields))),
             save_mentions
               (<[ i := <[ "updated_at" := VStr now ]>
                          (foldl (overwrite patch) m allowed_fields) ]>
                  (load_mentions w)) w)) as Hupdate.
  { unfold update_mention. by rewrite Hfind, patch_fields_dict. }
  exists i, m, (<[ "updated_at" := VStr now ]>
                 (foldl (overwrite patch) m allowed_fields)).
  repeat split; try done.
  - intros f Hf.
    rewrite lookup_insert_ne
      by (intros Heq; by apply (allowed_field_not_updated_at f)).
    rewrite lookup_overwrite_fields. by rewrite decide_True.
  - by rewrite lookup_insert_eq.
  - intros k Hk Hne. rewrite lookup_insert_ne by done.
    rewrite lookup_overwrite_fields. by rewrite decide_False.
  - apply list_lookup_insert_eq. by eapply lookup_lt_Some.
  - intros j Hj. by apply list_lookup_insert_ne.
  - apply length_insert.
  - intros Hfault. rewrite Hupdate. simpl. by apply load_save_mentions.
Qed.

(** C7 (as amended). [delete_mention] removes every mention whose
    stringified id is the given one, the first as well as any later one
    (so exactly the first when no other mention has that id), and hands
    the remaining mentions, in order, to [save_mentions]; when no
    mention has the id it answers not-found and leaves the world as it
    was: no write is attempted. *)
Theorem delete_mention_removes_every_match (mention_id : string) (w : world) :
  ((∃ m, m ∈ load_mentions w ∧ has_id py_repr mention_id m) →
   delete_mention py_repr mention_id w
   = (json_response 200
        (VDict {[ "message" := VStr "Mention deleted successfully" ]}),
      save_mentions
        (filter (λ m, ¬ has_id py_repr mention_id m) (load_mentions w)) w) ∧
   (mentions_fault w = NoFault →
    load_mentions (delete_mention py_repr mention_id w).2
    = filter (λ m, ¬ has_id py_repr mention_id m) (load_mentions w)) ∧
   (∀ i m, load_mentions w !! i = Some m →
      has_id py_repr mention_id m →
      (∀ j m', j ≠ i → load_mentions w !! j = Some m' →
         ¬ has_id py_repr mention_id m') →
      filter (λ m, ¬ has_id py_repr mention_id m) (load_mentions w)
      = delete i (load_mentions w))) ∧
  ((∀ m, m ∈ load_mentions w → ¬ has_id py_repr mention_id m) →
   delete_mention py_repr mention_id w = (not_found, w)).
Proof.
  split.
  - intros Hpresent.
    pose proof (delete_mention_found mention_id w Hpresent) as Hdelete.
    split; [done|]. split.
    + intros Hfault. rewrite Hdelete. simpl. by apply load_save_mentions.
    + intros i m' Hi Hid' Hothers.
      by apply (filter_unique_delete _ _ i m').
  - intros Hnone. unfold delete_mention.
    rewrite filter_all by done.
    rewrite bool_decide_false by lia. done.
Qed.

End UpdateDelete.

(** ** The statements at sample inputs *)

Lemma crawl_log_retention_witness :
  crawl_log_fault empty_store = NoFault ∧
  load_crawl_log empty_store = [] ∧
  (100 < length sample_entries)%nat ∧
  load_crawl_log (append_all sample_entries empty_store)
  = VInt <$> seqZ 2 100.
Proof.
  assert (100 < length sample_entries)%nat as Hmany by (vm_compute; lia).
  split; [reflexivity|]. split; [reflexivity|]. split; [exact Hmany|].
  exact (proj1 (proj2 (crawl_log_retention empty_store sample_entries
                         eq_refl) eq_refl Hmany)).
Defined.

Lemma get_crawl_log_window_witness :
  0 < 2 ∧
  get_crawl_log (Some 2) (append_all sample_entries empty_store)
  = json_response 200 (VList [VInt 100; VInt 101]).
Proof.
  split; [lia|].
  exact (proj1 (proj2 (get_crawl_log_window
                         (append_all sample_entries empty_store)) 2 eq_refl)).
Defined.

Lemma merge_appends_unseen_urls_witness :
  Forall hashable_url sample_existing ∧
  Forall hashable_url sample_incoming ∧
  all_mentions sample_existing sample_incoming
  = Ok (sample_existing ++ [mention_of "4" "https://a.example/3" "pending"],
        [mention_of "4" "https://a.example/3" "pending"]) ∧
  load_mentions
    (trigger_crawl (fixed_crawl sample_incoming) "2024-05-01T12:00:00" VNone
       (store_of sample_existing)).2
  = sample_existing ++ [mention_of "4" "https://a.example/3" "pending"].
Proof.
  assert (Forall hashable_url sample_existing) as Hexisting
    by (repeat constructor).
  assert (Forall hashable_url sample_incoming) as Hincoming
    by (repeat constructor).
  split; [exact Hexisting|]. split; [exact Hincoming|].
  destruct (merge_appends_unseen_urls (fixed_crawl sample_incoming)
              sample_existing sample_incoming Hexisting Hincoming)
    as [Hmerge Hstored].
  rewrite Hmerge.
  rewrite (Hstored "2024-05-01T12:00:00" VNone default_queries (VInt 10)
             (store_of sample_existing) eq_refl eq_refl eq_refl eq_refl).
  unfold sample_incoming.
  rewrite filter_cons_False, filter_cons_True, filter_nil;
    [split; reflexivity|by_evaluation..].
Defined.

(** C2 fails as stated: into an empty store, a crawl that finds one url
    twice has both candidates admitted. *)
Lemma merge_admits_url_found_twice :
  distinct_urls [] ∧
  all_mentions [] found_twice = Ok (found_twice, found_twice) ∧
  ¬ distinct_urls found_twice.
Proof.
  split; [constructor|]. split.
  - rewrite all_mentions_spec by (repeat constructor).
    unfold admitted. rewrite filter_all; [done|].
    intros m _ Hknown. by apply Exists_nil in Hknown.
  - unfold distinct_urls, found_twice. simpl.
    intros [Hnotin _]%NoDup_cons. apply Hnotin. left.
Qed.

Lemma merge_keeps_urls_distinct_witness :
  Forall hashable_url sample_existing ∧
  Forall hashable_url twice_known ∧
  distinct_urls sample_existing ∧
  ∃ merged unique,
    all_mentions sample_existing twice_known = Ok (merged, unique) ∧
    unique = [mention_of "15" "https://a.example/4" "pending"] ∧
    distinct_urls merged.
Proof.
  assert (Forall hashable_url sample_existing) as Hexisting
    by (repeat constructor).
  assert (Forall hashable_url twice_known) as Hincoming
    by (repeat constructor).
  assert (distinct_urls sample_existing) as Hdistinct.
  { unfold distinct_urls. by_evaluation. }
  split; [exact Hexisting|]. split; [exact Hincoming|].
  split; [exact Hdistinct|].
  destruct (merge_keeps_urls_distinct sample_existing twice_known
              Hexisting Hincoming Hdistinct)
    as (merged & unique & Hmerge & Hunique & Hsufficient & _).
  assert (unique = [mention_of "15" "https://a.example/4" "pending"])
    as Hadmitted.
  { rewrite Hunique. unfold twice_known.
    rewrite filter_cons_False, filter_cons_False, filter_cons_True,
      filter_nil; [reflexivity|by_evaluation..]. }
  exists merged, unique. split; [exact Hmerge|]. split; [exact Hadmitted|].
  apply Hsufficient. rewrite Hadmitted. unfold distinct_urls. by_evaluation.
Defined.

Lemma second_merge_adds_nothing_witness :
  Forall hashable_url sample_existing ∧
  Forall hashable_url found_twice ∧
  ∃ merged unique,
    all_mentions sample_existing found_twice = Ok (merged, unique) ∧
    all_mentions merged found_twice = Ok (merged, []).
Proof.
  assert (Forall hashable_url sample_existing) as Hexisting
    by (repeat constructor).
  assert (Forall hashable_url found_twice) as Hincoming
    by (repeat constructor).
  split; [exact Hexisting|]. split; [exact Hincoming|].
  destruct (second_merge_adds_nothing (fixed_crawl found_twice)
              sample_existing found_twice Hexisting Hincoming)
    as (merged & unique & Hfirst & Hsecond & _).
  exists merged, unique. split; [exact Hfirst|exact Hsecond].
Defined.

Lemma empty_urls_are_dedup_keys_witness :
  Forall hashable_url [without_url "8"] ∧
  Forall hashable_url [without_url "9"] ∧
  without_url "8" ∈ [without_url "8"] ∧
  ((without_url "8" !! "url" = None ∧ without_url "9" !! "url" = None) ∨
   (without_url "8" !! "url" = Some (VStr "") ∧
    without_url "9" !! "url" = Some (VStr ""))) ∧
  ∃ merged unique,
    all_mentions [without_url "8"] [without_url "9"] = Ok (merged, unique) ∧
    merged = [without_url "8"] ++ unique ∧
    without_url "9" ∉ unique.
Proof.
  assert (Forall hashable_url [without_url "8"]) as Hexisting
    by (repeat constructor).
  assert (Forall hashable_url [without_url "9"]) as Hincoming
    by (repeat constructor).
  assert (without_url "8" ∈ [without_url "8"]) as Hin by left.
  assert ((without_url "8" !! "url" = None ∧ without_url "9" !! "url" = None) ∨
          (without_url "8" !! "url" = Some (VStr "") ∧
           without_url "9" !! "url" = Some (VStr ""))) as Hurl
    by (left; split; reflexivity).
  split; [exact Hexisting|]. split; [exact Hincoming|].
  split; [exact Hin|]. split; [exact Hurl|].
  exact (empty_urls_are_dedup_keys [without_url "8"] [without_url "9"]
           (without_url "8") (without_url "9") Hexisting Hincoming Hin Hurl).
Defined.

Lemma crawler_exception_aborts_ingestion_witness :
  crawl_parameters VNone = Ok (default_queries, VInt 10) ∧
  failing_crawl default_queries (VInt 10)
  = Raise (Raised "search API unreachable") ∧
  (trigger_crawl failing_crawl "2024-05-01T12:00:00" VNone
     (store_of sample_existing)).1
  = crawl_failure (Raised "search API unreachable") ∧
  mentions_file
    (trigger_crawl failing_crawl "2024-05-01T12:00:00" VNone
       (store_of sample_existing)).2
  = Stored sample_existing.
Proof.
  split; [reflexivity|]. split; [reflexivity|].
  destruct (crawler_exception_aborts_ingestion failing_crawl
              "2024-05-01T12:00:00" VNone default_queries (VInt 10)
              (Raised "search API unreachable") (store_of sample_existing)
              eq_refl eq_refl) as (Hresponse & Hmentions & _ & _).
  split; [exact Hresponse|exact Hmentions].
Defined.

Lemma update_mention_touches_allowed_fields_witness :
  (∃ m0, m0 ∈ load_mentions (store_of sample_existing) ∧
     has_id sample_repr "2" m0) ∧
  ∃ m m' : mention,
    (update_mention sample_repr "2024-05-01T12:00:00" "2"
       (VDict sample_patch) (store_of sample_existing)).1
    = json_response 200 (VDict m') ∧
    m' !! "priority" = Some (VStr "high") ∧
    m' !! "url" = m !! "url" ∧
    m' !! "updated_at" = Some (VStr "2024-05-01T12:00:00").
Proof.
  assert (∃ m0, m0 ∈ load_mentions (store_of sample_existing) ∧
            has_id sample_repr "2" m0) as Hpresent.
  { exists (mention_of "2" "https://a.example/2" "approved").
    split; [right; left|reflexivity]. }
  split; [exact Hpresent|].
  destruct (update_mention_touches_allowed_fields sample_repr
              "2024-05-01T12:00:00" "2" sample_patch
              (store_of sample_existing) Hpresent)
    as (i & m & m' & _ & _ & _ & Hupdate & Hallowed & Hstamp & Hother & _).
  exists m, m'. split; [by rewrite Hupdate|].
  split; [|split; [|exact Hstamp]].
  - rewrite (Hallowed "priority"); [reflexivity|].
    right; right; right; left.
  - apply Hother; [|discriminate].
    unfold allowed_fields. rewrite !elem_of_cons, elem_of_nil.
    intros [?|[?|[?|[?|[]]]]]; discriminate.
Defined.

(** C7 fails as stated: two stored mentions have the id 7, and deleting
    that id removes both, where the claim has only the first removed. *)
Lemma delete_mention_removes_both :
  load_mentions (delete_mention sample_repr "7" (store_of same_id)).2 = [] ∧
  load_mentions (delete_mention sample_repr "7" (store_of same_id)).2
  ≠ [mention_of "7" "https://a.example/2" "approved"].
Proof.
  assert (load_mentions (delete_mention sample_repr "7" (store_of same_id)).2
          = []) as ->; [|done].
  rewrite delete_mention_found.
  - cbn [snd]. rewrite load_save_mentions by reflexivity.
    change (load_mentions (store_of same_id)) with same_id. unfold same_id.
    rewrite !filter_cons_False, filter_nil; [done|by_evaluation..].
  - exists (mention_of "7" "https://a.example/1" "pending").
    split; [left|reflexivity].
Qed.

Lemma delete_mention_removes_every_match_witness :
  (∃ m, m ∈ load_mentions (store_of same_id) ∧ has_id sample_repr "7" m) ∧
  mentions_fault (store_of same_id) = NoFault ∧
  delete_mention sample_repr "7" (store_of same_id)
  = (json_response 200
       (VDict {[ "message" := VStr "Mention deleted successfully" ]}),
     save_mentions [] (store_of same_id)) ∧
  (∀ m, m ∈ load_mentions (store_of sample_existing) →
     ¬ has_id sample_repr "7" m) ∧
  delete_mention sample_repr "7" (store_of sample_existing)
  = (not_found, store_of sample_existing).
Proof.
  assert (∃ m, m ∈ load_mentions (store_of same_id) ∧
            has_id sample_repr "7" m) as Hpresent.
  { exists (mention_of "7" "https://a.example/1" "pending").
    split; [left|reflexivity]. }
  assert (∀ m, m ∈ load_mentions (store_of sample_existing) →
            ¬ has_id sample_repr "7" m) as Habsent.
  { intros m Hm.
    change (load_mentions (store_of sample_existing))
      with sample_existing in Hm.
    unfold sample_existing in Hm.
    rewrite !elem_of_cons, elem_of_nil in Hm.
    destruct Hm as [->|[->|[]]]; vm_compute; discriminate. }
  split; [exact Hpresent|]. split; [reflexivity|]. split.
  - rewrite (proj1 (proj1 (delete_mention_removes_every_match sample_repr "7"
                             (store_of same_id)) Hpresent)).
    change (load_mentions (store_of same_id)) with same_id. unfold same_id.
    rewrite !filter_cons_False, filter_nil; [reflexivity|by_evaluation..].
  - split; [exact Habsent|].
    exact (proj2 (delete_mention_removes_every_match sample_repr "7"
                    (store_of sample_existing)) Habsent).
Defined.

(** * Further properties of the handlers *)

(** ** Persistence *)

(** What [load_mentions] reads after [save_mentions]: the saved
    collection when the write goes through, the previous collection when
    [open] fails, and the empty collection when the dump fails after the
    file was truncated; the crawl log is not affected. *)
Lemma load_after_save_mentions (mentions : list mention) (w : world) :
  load_mentions (save_mentions mentions w)
  = match mentions_fault w with
    | NoFault => mentions
    | OpenFails => load_mentions w
    | DumpFails => []
    end ∧
  load_crawl_log (save_mentions mentions w) = load_crawl_log w.
Proof.
  split; [|done].
  unfold load_mentions, save_mentions. simpl.
  by destruct (mentions_fault w).
Qed.

(** X1. The cap of the crawl log is kept whatever the disk does: when the
    stored log has at most 100 entries, it has at most 100 entries after
    [save_crawl_log], whether the write goes through or fails. *)
Theorem crawl_log_cap_invariant (log_entry : value) (w : world) :
  (length (load_crawl_log w) ≤ 100)%nat →
  (length (load_crawl_log (save_crawl_log log_entry w)) ≤ 100)%nat.
Proof.
  intros Hcap. unfold save_crawl_log, load_crawl_log at 1. simpl.
  destruct (crawl_log_fault w); simpl.
  - rewrite (slice_from_neg 100) by lia. rewrite last_n_length. lia.
  - exact Hcap.
  - lia.
Qed.

Lemma crawl_log_cap_invariant_witness :
  (length (load_crawl_log (full_log_store NoFault)) ≤ 100)%nat ∧
  (length (load_crawl_log
             (save_crawl_log (VInt 101) (full_log_store NoFault)))
   ≤ 100)%nat ∧
  (length (load_crawl_log (full_log_store OpenFails)) ≤ 100)%nat ∧
  (length (load_crawl_log
             (save_crawl_log (VInt 101) (full_log_store OpenFails)))
   ≤ 100)%nat ∧
  (length (load_crawl_log (full_log_store DumpFails)) ≤ 100)%nat ∧
  (length (load_crawl_log
             (save_crawl_log (VInt 101) (full_log_store DumpFails)))
   ≤ 100)%nat.
Proof.
  assert (∀ f, length (load_crawl_log (full_log_store f)) ≤ 100)%nat
    as Hfull by (intros f; vm_compute; lia).
  split; [exact (Hfull NoFault)|]. split.
  { exact (crawl_log_cap_invariant (VInt 101) (full_log_store NoFault)
             (Hfull NoFault)). }
  split; [exact (Hfull OpenFails)|]. split.
  { exact (crawl_log_cap_invariant (VInt 101) (full_log_store OpenFails)
             (Hfull OpenFails)). }
  split; [exact (Hfull DumpFails)|].
  exact (crawl_log_cap_invariant (VInt 101) (full_log_store DumpFails)
           (Hfull DumpFails)).
Defined.

(** X2. Start-up leaves the stored mentions as they are: what
    [load_mentions] reads is the same before and after the initialisation
    of the [__main__] block, whatever the disk does, a file that exists
    (even one that does not parse) is not rewritten, and the crawl log
    is not touched. *)
Theorem initialize_keeps_mentions (w : world) :
  load_mentions (initialize_mentions_file w) = load_mentions w ∧
  (mentions_file w ≠ Absent → initialize_mentions_file w = w) ∧
  crawl_log_file (initialize_mentions_file w) = crawl_log_file w.
Proof.
  unfold initialize_mentions_file, load_mentions, save_mentions.
  destruct (mentions_file w) eqn:Hfile; simpl; rewrite ?Hfile;
    repeat split; try done.
  by destruct (mentions_fault w).
Qed.

(** ** Reading the crawl log *)

(** X3. Without a usable [limit] parameter the handler answers with the
    last 20 entries of the log, oldest first (the whole log when it has
    fewer). *)
Theorem get_crawl_log_default (w : world) :
  get_crawl_log None w
  = json_response 200 (VList (last_n 20 (load_crawl_log w))) ∧
  last_n 20 (load_crawl_log w) `suffix_of` load_crawl_log w ∧
  length (last_n 20 (load_crawl_log w))
  = (length (load_crawl_log w) `min` 20)%nat.
Proof.
  split; [|split].
  - unfold get_crawl_log. simpl. by rewrite (slice_from_neg 20) by lia.
  - apply last_n_suffix.
  - apply last_n_length.
Qed.

(** X4. A negative limit does not bound the answer: with [limit=-k] the
    handler answers with the log without its first [k] entries (nothing
    when the log has at most [k] entries), since [logs[k:]] is what
    [logs[-limit:]] then means. *)
Theorem get_crawl_log_negative_limit (k : nat) (w : world) :
  (0 < k)%nat →
  get_crawl_log (Some (- Z.of_nat k)) w
  = json_response 200 (VList (drop k (load_crawl_log w))).
Proof.
  intros Hk. unfold get_crawl_log, slice_from, slice_index. simpl.
  rewrite bool_decide_false by lia. do 2 f_equal.
  destruct (decide (k ≤ length (load_crawl_log w))%nat).
  - f_equal. lia.
  - rewrite !drop_ge; [done|lia..].
Qed.

Lemma get_crawl_log_negative_limit_witness :
  (0 < 99)%nat ∧
  get_crawl_log (Some (-99)) (append_all sample_entries empty_store)
  = json_response 200 (VList [VInt 101]).
Proof.
  assert (0 < 99)%nat as Hk by lia.
  split; [exact Hk|].
  exact (get_crawl_log_negative_limit 99
           (append_all sample_entries empty_store) Hk).
Defined.

(** ** Listing and exporting *)

Lemma get_mentions_listing (status location priority : option string)
    (w : world) :
  listed (get_mentions status location priority w)
  = VDict <$> filter (selected status location priority) (load_mentions w).
Proof.
  unfold get_mentions. simpl.
  rewrite filter_status, !filter_with_sentinel, !list_filter_filter.
  f_equal. apply list_filter_iff. intros m. unfold selected. tauto.
Qed.

Lemma elem_of_listing (P : mention → Prop) `{∀ m, Decision (P m)}
    (l : list mention) (v : value) :
  v ∈ VDict <$> filter P l ↔ ∃ m, v = VDict m ∧ m ∈ l ∧ P m.
Proof.
  rewrite list_elem_of_fmap. split.
  - intros (m & -> & [HP Hm]%list_elem_of_filter). eauto.
  - intros (m & -> & Hm & HP). exists m. split; [done|].
    by apply list_elem_of_filter.
Qed.

(** X5. Filters compose by intersection: a mention is listed under a
    status, a location and a priority parameter together exactly when it
    is listed under each of the three parameters given alone. *)
Theorem get_mentions_filters_intersect (status location priority : option string)
    (w : world) (v : value) :
  v ∈ listed (get_mentions status location priority w) ↔
  v ∈ listed (get_mentions status None None w) ∧
  v ∈ listed (get_mentions None location None w) ∧
  v ∈ listed (get_mentions None None priority w).
Proof.
  rewrite !get_mentions_listing, !elem_of_listing. unfold selected. simpl.
  split.
  - intros (m & -> & Hm & Hs & Hl & Hp).
    repeat split; exists m; tauto.
  - intros ((m & -> & Hm & Hs & _) & (m' & [= <-] & _ & _ & Hl & _)
            & (m'' & [= <-] & _ & _ & _ & Hp)).
    exists m. tauto.
Qed.

(** X6. The export lists what the list operation lists for the same
    status parameter alone, and its [count] is the number of mentions it
    lists. *)
Theorem export_data_agrees_with_listing (now : string)
    (status : option string) (w : world) :
  export_data now status w
  = json_response 200
      (VDict (<[ "exported_at" := VStr now ]>
             (<[ "count" := len (listed (get_mentions status None None w)) ]>
             (<[ "mentions" :=
                   VList (listed (get_mentions status None None w)) ]> ∅)))).
Proof.
  unfold export_data, get_mentions, listed, len. simpl.
  by rewrite length_fmap.
Qed.

(** ** Looking a mention up, after an update or a deletion *)

Lemma list_find_insert_hit {A} (P : A → Prop) `{∀ x, Decision (P x)}
    (l : list A) (i : nat) (x y : A) :
  list_find P l = Some (i, x) →
  P y →
  list_find P (<[ i := y ]> l) = Some (i, y).
Proof.
  intros (Hi & Hx & Hfirst)%list_find_Some Hy. apply list_find_Some.
  split; [|split; [done|]].
  - apply list_lookup_insert_eq. by eapply lookup_lt_Some.
  - intros j z Hj Hlt. rewrite list_lookup_insert_ne in Hj by lia.
    by eapply Hfirst.
Qed.

Lemma list_find_insert_miss {A} (Q : A → Prop) `{∀ x, Decision (Q x)}
    (l : list A) (i : nat) (x y : A) :
  l !! i = Some x →
  ¬ Q x →
  ¬ Q y →
  list_find Q (<[ i := y ]> l) = list_find Q l.
Proof.
  intros Hi Hx Hy.
  destruct (list_find Q l) as [[j z]|] eqn:Hfind.
  - apply list_find_Some in Hfind as (Hj & Hz & Hfirst).
    assert (i ≠ j) as Hne by (intros ->; congruence).
    apply list_find_Some. split; [|split; [done|]].
    + by rewrite list_lookup_insert_ne.
    + intros j' z' Hj' Hlt. destruct (decide (i = j')) as [<-|Hne'].
      * rewrite list_lookup_insert_eq in Hj' by by eapply lookup_lt_Some.
        congruence.
      * rewrite list_lookup_insert_ne in Hj' by done. by eapply Hfirst.
  - apply list_find_None. apply list_find_None in Hfind.
    by apply Forall_insert.
Qed.

Lemma list_find_filter_keep {A} (Q R : A → Prop) `{∀ x, Decision (Q x)}
    `{∀ x, Decision (R x)} (l : list A) :
  (∀ x, Q x → R x) →
  snd <$> list_find Q (filter R l) = snd <$> list_find Q l.
Proof.
  intros HQR. induction l as [|a l IH]; [done|].
  destruct (decide (R a)) as [Ha|Ha].
  - rewrite filter_cons_True by done. simpl.
    destruct (decide (Q a)); [done|].
    rewrite <- !option_fmap_compose. apply IH.
  - rewrite filter_cons_False by done. simpl.
    rewrite decide_False by (intros HQ; by apply Ha, HQR).
    rewrite <- !option_fmap_compose. apply IH.
Qed.

Lemma list_find_filter_gone {A} (P : A → Prop) `{∀ x, Decision (P x)}
    (l : list A) :
  list_find P (filter (λ x, ¬ P x) l) = None.
Proof.
  apply list_find_None, Forall_forall.
  by intros x [HP _]%list_elem_of_filter.
Qed.

Lemma patch_fields_snoc (data : value) (fields : list string)
    (field : string) (m : mention) :
  patch_fields data (fields ++ [field]) m
  = m' ← patch_fields data fields m; patch_field data m' field.
Proof. unfold patch_fields. by rewrite foldl_snoc. Qed.

Lemma patch_field_other (data : value) (m m' : mention) (field k : string) :
  patch_field data m field = Ok m' →
  k ≠ field →
  m' !! k = m !! k.
Proof.
  unfold patch_field. intros Hpatch Hk.
  destruct (py_contains data field) as [[]|]; simpl in Hpatch; [| |done].
  - destruct (py_getitem data field) as [v|]; simpl in Hpatch; [|done].
    injection Hpatch as <-. by rewrite lookup_insert_ne.
  - by injection Hpatch as <-.
Qed.

Lemma patch_fields_other (data : value) (fields : list string)
    (m m' : mention) (k : string) :
  patch_fields data fields m = Ok m' →
  k ∉ fields →
  m' !! k = m !! k.
Proof.
  revert m'. induction fields as [|field fields IH] using rev_ind;
    intros m' Hpatch Hk.
  - by injection Hpatch as <-.
  - rewrite patch_fields_snoc in Hpatch.
    destruct (patch_fields data fields m) as [m1|] eqn:Hfields; [|done].
    simpl in Hpatch. rewrite elem_of_app, list_elem_of_singleton in Hk.
    rewrite (patch_field_other _ _ _ _ _ Hpatch) by tauto.
    apply IH; [done|tauto].
Qed.

Section Lookup.

Context (py_repr : value → string).

Lemma has_id_unique (mention_id mention_id' : string) (m : mention) :
  has_id py_repr mention_id m →
  has_id py_repr mention_id' m →
  mention_id = mention_id'.
Proof. unfold has_id. congruence. Qed.

Lemma has_id_same_field (mention_id : string) (m m' : mention) :
  m' !! "id" = m !! "id" →
  has_id py_repr mention_id m' ↔ has_id py_repr mention_id m.
Proof. unfold has_id, dict_get. by intros ->. Qed.

(** What [update_mention] does once the target is found and the loop
    over the allowed fields has gone through. *)
Lemma update_mention_found now mention_id data w i m patched :
  list_find (has_id py_repr mention_id) (load_mentions w) = Some (i, m) →
  patch_fields data allowed_fields m = Ok patched →
  update_mention py_repr now mention_id data w
  = (json_response 200 (VDict (<[ "updated_at" := VStr now ]> patched)),
     save_mentions
       (<[ i := <[ "updated_at" := VStr now ]> patched ]> (load_mentions w))
       w) ∧
  (<[ "updated_at" := VStr now ]> patched : mention) !! "id" = m !! "id".
Proof.
  intros Hfind Hpatch. unfold update_mention. rewrite Hfind, Hpatch.
  split; [done|]. rewrite lookup_insert_ne by done.
  apply (patch_fields_other data allowed_fields); [done|].
  unfold allowed_fields. rewrite !elem_of_cons, elem_of_nil.
  intros [?|[?|[?|[?|[]]]]]; discriminate.
Qed.

(** The stored collection after [update_mention], whatever the body:
    either it is the one before, or the target has been replaced by a
    mention with the same id. *)
Lemma update_mention_stored now mention_id data w :
  mentions_fault w ≠ DumpFails →
  load_mentions (update_mention py_repr now mention_id data w).2
  = load_mentions w ∨
  ∃ i m m',
    list_find (has_id py_repr mention_id) (load_mentions w) = Some (i, m) ∧
    m' !! "id" = m !! "id" ∧
    m' !! "updated_at" = Some (VStr now) ∧
    (update_mention py_repr now mention_id data w).1
    = json_response 200 (VDict m') ∧
    load_mentions (update_mention py_repr now mention_id data w).2
    = <[ i := m' ]> (load_mentions w).
Proof.
  intros Hfault.
  destruct (list_find (has_id py_repr mention_id) (load_mentions w))
    as [[i m]|] eqn:Hfind; [|left; unfold update_mention; by rewrite Hfind].
  destruct (patch_fields data allowed_fields m) as [patched|e] eqn:Hpatch;
    [|left; unfold update_mention; by rewrite Hfind, Hpatch].
  destruct (update_mention_found now mention_id data w i m patched Hfind
              Hpatch) as [Hupdate Hid].
  rewrite Hupdate. simpl.
  rewrite (proj1 (load_after_save_mentions _ w)).
  destruct (mentions_fault w); [|by left|done].
  right. exists i, m, (<[ "updated_at" := VStr now ]> patched).
  repeat split; try done. by rewrite lookup_insert_eq.
Qed.

Lemma get_mention_by_element (mention_id : string) (w : world) :
  get_mention py_repr mention_id w
  = match snd <$> list_find (has_id py_repr mention_id) (load_mentions w) with
    | Some m =>
        if py_truthy (VDict m) then json_response 200 (VDict m) else not_found
    | None => not_found
    end.
Proof.
  unfold get_mention.
  by destruct (list_find _ (load_mentions w)) as [[i m]|].
Qed.

(** X7. [get_mention] answers with the first stored mention whose
    stringified id is the given one; it answers not-found when no mention
    has the id, and also when that first mention is the empty object
    (whose id reads [None]), an empty dict being falsy. *)
Theorem get_mention_first_match (mention_id : string) (w : world) :
  (∀ i m,
     load_mentions w !! i = Some m →
     has_id py_repr mention_id m →
     (∀ j m', load_mentions w !! j = Some m' → (j < i)%nat →
        ¬ has_id py_repr mention_id m') →
     get_mention py_repr mention_id w
     = if decide (m = ∅) then not_found else json_response 200 (VDict m)) ∧
  ((∀ m, m ∈ load_mentions w → ¬ has_id py_repr mention_id m) →
   get_mention py_repr mention_id w = not_found).
Proof.
  split.
  - intros i m Hi Hid Hfirst.
    assert (list_find (has_id py_repr mention_id) (load_mentions w)
            = Some (i, m)) as Hfind by by apply list_find_Some.
    unfold get_mention. rewrite Hfind. simpl.
    destruct (decide (m = ∅)) as [->|Hne].
    + by rewrite bool_decide_false by naive_solver.
    + by rewrite bool_decide_true.
  - intros Hnone. unfold get_mention.
    by rewrite (proj2 (list_find_None _ _)) by by apply Forall_forall.
Qed.

(** X8. Reading back an update: when [update_mention] answers 200 and the
    write goes through, [get_mention] for the same id answers with the
    very mention the update answered with. *)
Theorem get_mention_after_update (now mention_id : string) (data : value)
    (w : world) (m' : value) :
  mentions_fault w = NoFault →
  (update_mention py_repr now mention_id data w).1 = json_response 200 m' →
  get_mention py_repr mention_id
    (update_mention py_repr now mention_id data w).2
  = json_response 200 m'.
Proof.
  intros Hfault Hanswer.
  destruct (list_find (has_id py_repr mention_id) (load_mentions w))
    as [[i m]|] eqn:Hfind;
    [|unfold update_mention in Hanswer; by rewrite Hfind in Hanswer].
  destruct (patch_fields data allowed_fields m) as [patched|e] eqn:Hpatch;
    [|unfold update_mention in Hanswer; by rewrite Hfind, Hpatch in Hanswer].
  destruct (update_mention_found now mention_id data w i m patched Hfind
              Hpatch) as [Hupdate Hid].
  rewrite Hupdate in Hanswer |- *. simpl in Hanswer |- *.
  injection Hanswer as <-.
  unfold get_mention. rewrite load_save_mentions by done.
  assert (has_id py_repr mention_id (<[ "updated_at" := VStr now ]> patched))
    as Hhas.
  { apply (has_id_same_field mention_id m _ Hid).
    by apply list_find_Some in Hfind as (_ & ? & _). }
  rewrite (list_find_insert_hit _ _ i m _ Hfind Hhas).
  simpl. rewrite bool_decide_true; [done|].
  intros Hempty%(f_equal (λ d : mention, d !! "updated_at")).
  by rewrite lookup_insert_eq in Hempty.
Qed.

(** X9. Deleting is final and idempotent: after [delete_mention] with a
    write that goes through, [get_mention] for that id answers
    not-found, and a second [delete_mention] for it answers not-found
    and leaves the world as it is. *)
Theorem delete_mention_then_gone (mention_id : string) (w : world) :
  mentions_fault w = NoFault →
  get_mention py_repr mention_id (delete_mention py_repr mention_id w).2
  = not_found ∧
  delete_mention py_repr mention_id (delete_mention py_repr mention_id w).2
  = (not_found, (delete_mention py_repr mention_id w).2).
Proof.
  intros Hfault.
  assert (∀ m, m ∈ load_mentions (delete_mention py_repr mention_id w).2 →
            ¬ has_id py_repr mention_id m) as Hgone.
  { unfold delete_mention. case_bool_decide as Hless; simpl.
    - rewrite load_save_mentions by done.
      by intros m [Hid _]%list_elem_of_filter.
    - intros m Hm Hid.
      apply Hless, (length_filter_lt _ _ m); [done|tauto]. }
  split.
  - unfold get_mention.
    by rewrite (proj2 (list_find_None _ _)) by by apply Forall_forall.
  - unfold delete_mention at 1.
    rewrite filter_all by done. by rewrite bool_decide_false by lia.
Qed.

(** X10. Deleting one id leaves the others as they are: unless the dump
    fails, [get_mention] for any other id answers after the deletion
    what it answered before. *)
Theorem delete_mention_keeps_other_ids (mention_id other_id : string)
    (w : world) :
  mentions_fault w ≠ DumpFails →
  other_id ≠ mention_id →
  get_mention py_repr other_id (delete_mention py_repr mention_id w).2
  = get_mention py_repr other_id w.
Proof.
  intros Hfault Hne. unfold delete_mention.
  case_bool_decide as Hless; simpl; [|done].
  rewrite !get_mention_by_element, (proj1 (load_after_save_mentions _ w)).
  destruct (mentions_fault w); [|done..].
  rewrite list_find_filter_keep; [done|].
  intros m Hother Hid. apply Hne. by eapply has_id_unique.
Qed.

(** X11. Updating one id leaves the others as they are: whatever the
    request body, and unless the dump fails, [get_mention] for any other
    id answers after the update what it answered before. *)
Theorem update_mention_keeps_other_ids (now mention_id other_id : string)
    (data : value) (w : world) :
  mentions_fault w ≠ DumpFails →
  other_id ≠ mention_id →
  get_mention py_repr other_id
    (update_mention py_repr now mention_id data w).2
  = get_mention py_repr other_id w.
Proof.
  intros Hfault Hne.
  destruct (update_mention_stored now mention_id data w Hfault)
    as [Hsame|(i & m & m' & Hfind & Hid & _ & _ & Hstored)];
    unfold get_mention; [by rewrite Hsame|].
  rewrite Hstored.
  apply list_find_Some in Hfind as (Hi & Hhas & _).
  rewrite (list_find_insert_miss _ _ i m); [done..| |].
  - intros Hother. apply Hne. by eapply has_id_unique.
  - intros Hother%(has_id_same_field _ _ _ Hid).
    apply Hne. by eapply has_id_unique.
Qed.

(** X12. An update that cannot be done writes nothing: when no mention
    has the id, [update_mention] answers not-found and leaves the world
    as it is, whatever the body; and when the body is [null], a boolean
    or a number and a mention has the id, it answers with the 500 of a
    [TypeError] and leaves the world as it is. *)
Theorem update_mention_rejections (now mention_id : string) (data : value)
    (w : world) :
  ((∀ m, m ∈ load_mentions w → ¬ has_id py_repr mention_id m) →
   update_mention py_repr now mention_id data w = (not_found, w)) ∧
  ((∃ m, m ∈ load_mentions w ∧ has_id py_repr mention_id m) →
   (data = VNone ∨ (∃ b, data = VBool b) ∨ (∃ z, data = VInt z)) →
   update_mention py_repr now mention_id data w
   = (error_response TypeError, w)).
Proof.
  split.
  - intros Hnone. unfold update_mention.
    by rewrite (proj2 (list_find_None _ _)) by by apply Forall_forall.
  - intros (m & Hm & Hid) Hdata.
    destruct (list_find_elem_of (has_id py_repr mention_id) _ m Hm Hid)
      as [[i m0] Hfind].
    unfold update_mention. rewrite Hfind.
    by destruct Hdata as [->|[[b ->]|[z ->]]].
Qed.

End Lookup.

(** ** Ingestion: requests, failures and what is recorded *)

Lemma unique_new_mentions_sublist (urls : gset key)
    (incoming unique : list mention) :
  unique_new_mentions urls incoming = Ok unique →
  unique `sublist_of` incoming.
Proof.
  revert unique. induction incoming as [|m rest IH]; intros unique; simpl.
  - by intros [= <-].
  - destruct (url_key m) as [k|]; simpl; [|done].
    destruct (unique_new_mentions urls rest) as [unique'|]; simpl; [|done].
    intros [= <-]. destruct (decide (k ∈ urls)).
    + by apply sublist_cons, IH.
    + by apply sublist_skip, IH.
Qed.

Lemma all_mentions_shape (existing incoming all unique : list mention) :
  all_mentions existing incoming = Ok (all, unique) →
  all = existing ++ unique ∧ unique `sublist_of` incoming.
Proof.
  unfold all_mentions.
  destruct (existing_urls existing) as [urls|]; simpl; [|done].
  destruct (unique_new_mentions urls incoming) as [unique'|] eqn:Hunique;
    simpl; [|done].
  intros [= <- <-]. split; [done|]. by eapply unique_new_mentions_sublist.
Qed.

Lemma slice_to_take {A} (n : nat) (l : list A) :
  slice_to (Z.of_nat n) l = take n l.
Proof.
  unfold slice_to, slice_index. rewrite bool_decide_false by lia.
  destruct (decide (n ≤ length l)%nat).
  - f_equal. lia.
  - rewrite !take_ge; [done|lia..].
Qed.

Lemma last_last_n {A} (n : nat) (l : list A) (x : A) :
  (0 < n)%nat → last (last_n n (l ++ [x])) = Some x.
Proof.
  intros Hn. unfold last_n. rewrite length_app. simpl.
  rewrite drop_app_le by lia. apply last_snoc.
Qed.

Section Requests.

Context (run_crawl : value → value → result (list mention)).

(** X13. A request body that cannot be read as parameters stops the
    ingestion before the crawler is called, with nothing written: a
    truthy body that is not an object (a non-empty list or string, a
    non-zero number, [true]) is answered with the failure of an
    [AttributeError], and an object whose [queries] is [null], a boolean
    or a number with the failure of a [TypeError]; the world is left as
    it was. *)
Theorem trigger_crawl_rejects_request (now : string) (request_json : value)
    (w : world) :
  (py_truthy request_json →
   (∀ d, request_json ≠ VDict d) →
   trigger_crawl run_crawl now request_json w
   = (crawl_failure AttributeError, w)) ∧
  (∀ d queries,
     request_json = VDict d →
     d !! "queries" = Some queries →
     queries = VNone ∨ (∃ b, queries = VBool b) ∨ (∃ z, queries = VInt z) →
     trigger_crawl run_crawl now request_json w
     = (crawl_failure TypeError, w)).
Proof.
  split.
  - intros Htruthy Hobject. unfold trigger_crawl, crawl_parameters.
    destruct (py_truthy request_json); [|done].
    by destruct request_json as [| | | | |d]; [..|destruct (Hobject d)].
  - intros d queries -> Hqueries Hunsized.
    unfold trigger_crawl, crawl_parameters.
    assert (py_get (if py_truthy (VDict d) then VDict d else VDict ∅)
              "queries" default_queries = Ok queries) as ->.
    { simpl. case_bool_decide as Hd; simpl; [by rewrite Hqueries|].
      subst d. by rewrite lookup_empty in Hqueries. }
    simpl. case_bool_decide; simpl;
      by destruct Hunsized as [->|[[b ->]|[z ->]]].
Qed.

(** X14. A falsy request body ([null], [false], [0], an empty string,
    list or object) stands for no parameters: the crawler is called with
    the four built-in queries and a cap of 10. *)
Theorem trigger_crawl_default_parameters (now : string)
    (request_json : value) (w : world) :
  py_truthy request_json = false →
  crawl_parameters request_json = Ok (default_queries, VInt 10) ∧
  effects w ++ [CrawlerCalled default_queries (VInt 10)]
    `prefix_of` effects (trigger_crawl run_crawl now request_json w).2.
Proof.
  intros Hfalsy.
  assert (crawl_parameters request_json = Ok (default_queries, VInt 10))
    as Hparams by (unfold crawl_parameters; by rewrite Hfalsy).
  split; [done|]. unfold trigger_crawl. rewrite Hparams.
  destruct (run_crawl _ _) as [found|]; [|done].
  destruct (all_mentions _ found) as [[all unique]|]; [|done].
  simpl. rewrite <- (assoc_L (++)). by apply prefix_app_r.
Qed.

(** X15. A url that is a list or a dict poisons ingestion: when a stored
    mention or a candidate has such a url, the crawl is answered with the
    failure of a [TypeError] after the crawler has been called, and
    neither file is written. *)
Theorem trigger_crawl_unhashable_url (now : string) (request_json : value)
    (queries cap : value) (found : list mention) (w : world) :
  crawl_parameters request_json = Ok (queries, cap) →
  run_crawl queries cap = Ok found →
  Exists (λ m, ¬ hashable_url m) (load_mentions w ++ found) →
  trigger_crawl run_crawl now request_json w
  = (crawl_failure TypeError, perform (CrawlerCalled queries cap) w).
Proof.
  intros Hparams Hcrawl Hunhashable. unfold trigger_crawl.
  rewrite Hparams, Hcrawl.
  change (load_mentions (perform _ w)) with (load_mentions w).
  by rewrite all_mentions_unhashable.
Qed.

(** X16. What a crawl that succeeds records: the last entry of the crawl
    log is the entry of this crawl, with the current time, with
    [total_found] the number of candidates and
    [total_found = new_unique + duplicates], neither count negative; and
    the answer reports the same three counts. *)
Theorem trigger_crawl_records_counts (now : string) (request_json : value)
    (queries cap : value) (found : list mention) (w : world) :
  crawl_parameters request_json = Ok (queries, cap) →
  run_crawl queries cap = Ok found →
  Forall hashable_url (load_mentions w) →
  Forall hashable_url found →
  crawl_log_fault w = NoFault →
  ∃ (entry summary : gmap string value) (unique duplicates : Z),
    (trigger_crawl run_crawl now request_json w).1
    = json_response 200 (VDict summary) ∧
    last (load_crawl_log (trigger_crawl run_crawl now request_json w).2)
    = Some (VDict entry) ∧
    entry !! "timestamp" = Some (VStr now) ∧
    entry !! "queries" = Some queries ∧
    entry !! "total_found" = Some (VInt (Z.of_nat (length found))) ∧
    entry !! "new_unique" = Some (VInt unique) ∧
    entry !! "duplicates" = Some (VInt duplicates) ∧
    Z.of_nat (length found) = unique + duplicates ∧
    0 ≤ unique ∧ 0 ≤ duplicates ∧
    summary !! "success" = Some (VBool true) ∧
    summary !! "total_found" = Some (VInt (Z.of_nat (length found))) ∧
    summary !! "new_mentions" = Some (VInt unique) ∧
    summary !! "duplicates" = Some (VInt duplicates).
Proof.
  intros Hparams Hcrawl Hexisting Hfound Hfault.
  rewrite (trigger_crawl_success _ _ _ _ _ _ _ _ _ Hparams Hcrawl
             (all_mentions_spec _ _ Hexisting Hfound)).
  set (unique := admitted (load_mentions w) found).
  assert (length unique ≤ length found)%nat as Hle by apply length_filter.
  eexists _, _, (Z.of_nat (length unique)),
    (Z.of_nat (length found) - Z.of_nat (length unique)).
  split; [done|]. split.
  { cbn [snd]. rewrite load_save_crawl_log by done.
    unfold crawl_log_entry. apply last_last_n. lia. }
  repeat split; try done; lia.
Qed.

(** X17. The preview of a crawl that succeeds is bounded: the answer
    carries the first 10 admitted mentions, in order (all of them when
    there are fewer), while [new_mentions] counts them all. *)
Theorem trigger_crawl_preview (now : string) (request_json : value)
    (queries cap : value) (found : list mention) (w : world) :
  crawl_parameters request_json = Ok (queries, cap) →
  run_crawl queries cap = Ok found →
  Forall hashable_url (load_mentions w) →
  Forall hashable_url found →
  ∃ summary : gmap string value,
    (trigger_crawl run_crawl now request_json w).1
    = json_response 200 (VDict summary) ∧
    summary !! "mentions"
    = Some (VList (VDict <$> take 10 (admitted (load_mentions w) found))) ∧
    summary !! "new_mentions"
    = Some (len (admitted (load_mentions w) found)) ∧
    (length (take 10 (admitted (load_mentions w) found)) ≤ 10)%nat.
Proof.
  intros Hparams Hcrawl Hexisting Hfound.
  rewrite (trigger_crawl_success _ _ _ _ _ _ _ _ _ Hparams Hcrawl
             (all_mentions_spec _ _ Hexisting Hfound)).
  eexists. split; [done|]. split; [|split; [done|]].
  - by rewrite <- (slice_to_take 10).
  - rewrite length_take. lia.
Qed.

(** X18. Ingestion only appends: whatever the request, whatever the
    crawler answers, and unless the dump of [mentions.json] fails, the
    mentions stored before a crawl are a prefix of the mentions stored
    after it. *)
Theorem trigger_crawl_appends_only (now : string) (request_json : value)
    (w : world) :
  mentions_fault w ≠ DumpFails →
  load_mentions w
    `prefix_of` load_mentions (trigger_crawl run_crawl now request_json w).2.
Proof.
  intros Hfault. unfold trigger_crawl.
  destruct (crawl_parameters request_json) as [[queries cap]|]; [|done].
  destruct (run_crawl queries cap) as [found|]; [|done].
  change (load_mentions (perform _ w)) with (load_mentions w).
  destruct (all_mentions (load_mentions w) found) as [[all unique]|]
    eqn:Hmerge; [|done].
  apply all_mentions_shape in Hmerge as [-> _]. simpl.
  change (load_mentions (save_crawl_log ?e ?w')) with (load_mentions w').
  rewrite (proj1 (load_after_save_mentions _ _)). simpl.
  destruct (mentions_fault w); [by apply prefix_app_r|done..].
Qed.

End Requests.

(** ** Statistics *)

Lemma py_hash_key_cases (v : value) :
  (hashable v ∧ ∃ k, py_hash_key v = Ok k) ∨
  (¬ hashable v ∧ py_hash_key v = Raise TypeError).
Proof. destruct v; simpl; by eauto. Qed.

Lemma distinct_values_spec (field : string) (mentions : list mention) :
  Forall (listable field) mentions →
  ∃ values, distinct_values field mentions = Ok values ∧
    ∀ k, k ∈ values ↔
      ∃ m, m ∈ mentions ∧ py_truthy (dict_get m field) ∧
        py_hash_key (dict_get m field) = Ok k.
Proof.
  induction 1 as [|m rest Hm _ (values & Hvalues & Hin)]; simpl.
  - exists ∅. split; [done|]. intros k. split; [set_solver|].
    by intros (m & ?%elem_of_nil & _).
  - unfold listable in Hm.
    destruct (py_truthy (dict_get m field)) eqn:Htruthy.
    + destruct (py_hash_key_cases (dict_get m field))
        as [[_ [k Hk]]|[Hno _]]; [|by destruct Hno; apply Hm].
      rewrite Hk, Hvalues. simpl. eexists. split; [done|]. intros k'.
      rewrite elem_of_union, elem_of_singleton, Hin. split.
      * intros [->|(m' & Hm' & Hrest)].
        -- exists m. rewrite Htruthy. split; [left|done].
        -- exists m'. split; [by right|done].
      * intros (m' & [->|Hm']%elem_of_cons & Ht & Hk').
        -- left. congruence.
        -- right. eauto.
    + exists values. split; [done|]. intros k. rewrite Hin. split.
      * intros (m' & Hm' & Hrest). exists m'. split; [by right|done].
      * intros (m' & [->|Hm']%elem_of_cons & Ht & Hk').
        -- by rewrite Htruthy in Ht.
        -- eauto.
Qed.

Lemma distinct_values_raise (field : string) (mentions : list mention) :
  Exists (λ m, ¬ listable field m) mentions →
  distinct_values field mentions = Raise TypeError.
Proof.
  induction 1 as [m rest Hm|m rest _ IH]; simpl.
  - unfold listable in Hm.
    destruct (py_truthy (dict_get m field)); [|by destruct Hm].
    destruct (py_hash_key_cases (dict_get m field))
      as [[Hyes _]|[_ ->]]; [|done].
    destruct Hm. by intros _.
  - rewrite IH. destruct (py_truthy (dict_get m field)); [|done].
    by destruct (py_hash_key_cases (dict_get m field))
      as [[_ [k ->]]|[_ ->]].
Qed.

Lemma distinct_values_type_error (field : string) (mentions : list mention)
    (e : exn) :
  distinct_values field mentions = Raise e → e = TypeError.
Proof.
  induction mentions as [|m rest IH]; simpl; [done|].
  destruct (py_truthy (dict_get m field)); [|done].
  destruct (py_hash_key_cases (dict_get m field))
    as [[_ [k ->]]|[_ ->]]; simpl; [|congruence].
  destruct (distinct_values field rest); simpl; [done|].
  intros [= <-]. by apply IH.
Qed.

Lemma count_status_le (l : list mention) :
  (count_status "pending" l + count_status "approved" l
   + count_status "deleted" l ≤ length l)%nat.
Proof.
  unfold count_status. induction l as [|m l IH]; [done|].
  rewrite !filter_cons. cbn [length].
  destruct (dict_get m "status") as [| | |s| |]; simpl; try lia.
  repeat case_bool_decide; simplify_eq; simpl; lia.
Qed.

Lemma count_status_listed (status : string) (w : world) :
  status ≠ "" →
  count_status status (load_mentions w)
  = length (listed (get_mentions (Some status) None None w)).
Proof.
  intros Hstatus. unfold count_status, get_mentions, listed. simpl.
  rewrite bool_decide_true by done. by rewrite length_fmap.
Qed.

Section Statistics.

Context (fromisoformat_date : string → option date).

Lemma today_captures_bound (today : date) (mentions : list mention) :
  (today_captures fromisoformat_date today mentions ≤ length mentions)%nat.
Proof.
  unfold today_captures.
  induction mentions as [|m mentions IH] using rev_ind; [done|].
  rewrite foldl_snoc, length_app. simpl.
  destruct (decide _); lia.
Qed.

(** X19. When every truthy [location] and [source] is hashable,
    [get_stats] answers with [total] the number of stored mentions, with
    [pending], [approved] and [deleted] the numbers of mentions the list
    operation lists under those statuses, which together do not exceed
    [total], and with [today_captured] at most [total]. *)
Theorem get_stats_counts (today : date) (w : world) :
  Forall (λ m, listable "location" m ∧ listable "source" m)
    (load_mentions w) →
  ∃ st, get_stats fromisoformat_date today w = Ok st ∧
    total st = length (load_mentions w) ∧
    pending st
    = length (listed (get_mentions (Some "pending") None None w)) ∧
    approved st
    = length (listed (get_mentions (Some "approved") None None w)) ∧
    deleted st
    = length (listed (get_mentions (Some "deleted") None None w)) ∧
    (pending st + approved st + deleted st ≤ total st)%nat ∧
    (today_captured st ≤ total st)%nat.
Proof.
  intros [Hlocations Hsources]%Forall_and.
  destruct (distinct_values_spec "location" _ Hlocations)
    as (locations & Hl & _).
  destruct (distinct_values_spec "source" _ Hsources) as (sources & Hs & _).
  unfold get_stats. rewrite Hl, Hs. eexists. split; [done|].
  cbn [total pending approved deleted today_captured].
  rewrite <- !count_status_listed by done.
  repeat split; [apply count_status_le|apply today_captures_bound].
Qed.

(** X20. One truthy [location] or [source] that is a list or a dict
    makes the statistics unavailable: [get_stats] answers with the 500
    of a [TypeError]. *)
Theorem get_stats_unhashable (today : date) (w : world) :
  Exists (λ m, ¬ listable "location" m ∨ ¬ listable "source" m)
    (load_mentions w) →
  get_stats fromisoformat_date today w = Raise TypeError.
Proof.
  intros [Hlocation|Hsource]%Exists_or_inv; unfold get_stats.
  - by rewrite (distinct_values_raise "location") by done.
  - rewrite (distinct_values_raise "source") by done.
    destruct (distinct_values "location" _) as [|e] eqn:Hlocation; [done|].
    simpl. f_equal. by eapply distinct_values_type_error.
Qed.

(** X21. The [locations] of the statistics are exactly the truthy
    [location] values of the stored mentions, each once: a mention
    without a location, or with [null] or the empty string as location,
    contributes nothing; likewise for [sources]. *)
Theorem get_stats_distinct_values (today : date) (w : world) :
  Forall (λ m, listable "location" m ∧ listable "source" m)
    (load_mentions w) →
  ∃ st, get_stats fromisoformat_date today w = Ok st ∧
    (∀ k, k ∈ locations st ↔
       ∃ m, m ∈ load_mentions w ∧ py_truthy (dict_get m "location") ∧
         py_hash_key (dict_get m "location") = Ok k) ∧
    (∀ k, k ∈ sources st ↔
       ∃ m, m ∈ load_mentions w ∧ py_truthy (dict_get m "source") ∧
         py_hash_key (dict_get m "source") = Ok k) ∧
    (KNone ∉ locations st) ∧ (KStr "" ∉ locations st) ∧
    (KNone ∉ sources st) ∧ (KStr "" ∉ sources st).
Proof.
  intros [Hlocations Hsources]%Forall_and.
  destruct (distinct_values_spec "location" _ Hlocations)
    as (locations & Hl & Hlin).
  destruct (distinct_values_spec "source" _ Hsources)
    as (sources & Hs & Hsin).
  assert (∀ v, py_truthy v → py_hash_key v ≠ Ok KNone ∧
                 py_hash_key v ≠ Ok (KStr "")) as Hfalsy.
  { intros [| | |s| |] Htruthy; simpl in *; split; try done.
    intros [= ->]. by apply bool_decide_unpack in Htruthy. }
  unfold get_stats. rewrite Hl, Hs. simpl. eexists. split; [done|]. simpl.
  split; [done|]. split; [done|].
  rewrite !Hlin, !Hsin.
  repeat split; intros (m & _ & Htruthy & Hkey);
    by destruct (Hfalsy _ Htruthy).
Qed.

(** X22. Only a string can date a capture to today: when every stored
    mention has a [capturedAt] that is not a string, or none while the
    date 2000-01-01 it defaults to is not today, [today_captured] is 0,
    whatever [fromisoformat] accepts. *)
Theorem get_stats_undated (today : date) (w : world) (st : statistics) :
  (∀ m, m ∈ load_mentions w →
     match m !! "capturedAt" with
     | Some (VStr _) => False
     | Some _ => True
     | None => fromisoformat_date "2000-01-01" ≠ Some today
     end) →
  get_stats fromisoformat_date today w = Ok st →
  today_captured st = 0%nat.
Proof.
  intros Hundated. unfold get_stats.
  destruct (distinct_values "location" _); simpl; [|done].
  destruct (distinct_values "source" _); simpl; [|done].
  intros [= <-]. simpl. unfold today_captures.
  induction (load_mentions w) as [|m mentions IH] using rev_ind; [done|].
  rewrite foldl_snoc, IH.
  - rewrite decide_False; [done|].
    specialize (Hundated m ltac:(apply elem_of_app; right; left)).
    unfold capture_date.
    by destruct (m !! "capturedAt") as [[]|].
  - intros m' Hm'. apply Hundated, elem_of_app. by left.
Qed.

End Statistics.

(** ** The further statements at sample inputs *)

Lemma sample_target :
  list_find (has_id sample_repr "2") (load_mentions (store_of sample_existing))
  = Some (1%nat, mention_of "2" "https://a.example/2" "approved").
Proof.
  apply list_find_Some. split; [done|]. split; [done|].
  intros j m Hj Hlt. destruct j as [|[|j]]; [|lia..].
  injection Hj as <-. by vm_compute.
Qed.

Lemma sample_update :
  (update_mention sample_repr "2024-05-01T12:00:00" "2" (VDict sample_patch)
     (store_of sample_existing)).1
  = json_response 200
      (VDict (<[ "updated_at" := VStr "2024-05-01T12:00:00" ]>
               (foldl (overwrite sample_patch)
                  (mention_of "2" "https://a.example/2" "approved")
                  allowed_fields))).
Proof.
  by rewrite (proj1 (update_mention_found sample_repr _ _ _ _ _ _ _
                       sample_target (patch_fields_dict _ _ _))).
Qed.

Lemma get_mention_after_update_witness :
  mentions_fault (store_of sample_existing) = NoFault ∧
  get_mention sample_repr "2"
    (update_mention sample_repr "2024-05-01T12:00:00" "2"
       (VDict sample_patch) (store_of sample_existing)).2
  = json_response 200
      (VDict (<[ "updated_at" := VStr "2024-05-01T12:00:00" ]>
               (foldl (overwrite sample_patch)
                  (mention_of "2" "https://a.example/2" "approved")
                  allowed_fields))).
Proof.
  split; [reflexivity|].
  exact (get_mention_after_update sample_repr "2024-05-01T12:00:00" "2"
           (VDict sample_patch) (store_of sample_existing) _ eq_refl
           sample_update).
Defined.

Lemma delete_mention_then_gone_witness :
  mentions_fault (store_of same_id) = NoFault ∧
  get_mention sample_repr "7"
    (delete_mention sample_repr "7" (store_of same_id)).2
  = not_found.
Proof.
  split; [reflexivity|].
  exact (proj1 (delete_mention_then_gone sample_repr "7" (store_of same_id)
                  eq_refl)).
Defined.

Lemma delete_mention_keeps_other_ids_witness :
  mentions_fault (store_of sample_existing) ≠ DumpFails ∧
  "1" ≠ "2" ∧
  get_mention sample_repr "1"
    (delete_mention sample_repr "2" (store_of sample_existing)).2
  = get_mention sample_repr "1" (store_of sample_existing).
Proof.
  assert (mentions_fault (store_of sample_existing) ≠ DumpFails) as Hfault
    by discriminate.
  assert ("1" ≠ "2") as Hne by discriminate.
  split; [exact Hfault|]. split; [exact Hne|].
  exact (delete_mention_keeps_other_ids sample_repr "2" "1"
           (store_of sample_existing) Hfault Hne).
Defined.

Lemma update_mention_keeps_other_ids_witness :
  mentions_fault (store_of sample_existing) ≠ DumpFails ∧
  "1" ≠ "2" ∧
  get_mention sample_repr "1"
    (update_mention sample_repr "2024-05-01T12:00:00" "2"
       (VDict sample_patch) (store_of sample_existing)).2
  = get_mention sample_repr "1" (store_of sample_existing).
Proof.
  assert (mentions_fault (store_of sample_existing) ≠ DumpFails) as Hfault
    by discriminate.
  assert ("1" ≠ "2") as Hne by discriminate.
  split; [exact Hfault|]. split; [exact Hne|].
  exact (update_mention_keeps_other_ids sample_repr "2024-05-01T12:00:00"
           "2" "1" (VDict sample_patch) (store_of sample_existing)
           Hfault Hne).
Defined.

Lemma update_mention_rejections_witness :
  (∃ m, m ∈ load_mentions (store_of sample_existing) ∧
     has_id sample_repr "2" m) ∧
  update_mention sample_repr "2024-05-01T12:00:00" "2" VNone
    (store_of sample_existing)
  = (error_response TypeError, store_of sample_existing).
Proof.
  assert (∃ m, m ∈ load_mentions (store_of sample_existing) ∧
            has_id sample_repr "2" m) as Hpresent.
  { exists (mention_of "2" "https://a.example/2" "approved").
    split; [right; left|reflexivity]. }
  split; [exact Hpresent|].
  exact (proj2 (update_mention_rejections sample_repr "2024-05-01T12:00:00"
                  "2" VNone (store_of sample_existing))
           Hpresent (or_introl eq_refl)).
Defined.

Lemma trigger_crawl_rejects_request_witness :
  py_truthy (VList [VStr "municipal utility"]) ∧
  (∀ d, VList [VStr "municipal utility"] ≠ VDict d) ∧
  trigger_crawl (fixed_crawl sample_incoming) "2024-05-01T12:00:00"
    (VList [VStr "municipal utility"]) (store_of sample_existing)
  = (crawl_failure AttributeError, store_of sample_existing).
Proof.
  assert (py_truthy (VList [VStr "municipal utility"])) as Htruthy
    by exact I.
  assert (∀ d, VList [VStr "municipal utility"] ≠ VDict d) as Hobject
    by discriminate.
  split; [exact Htruthy|]. split; [exact Hobject|].
  exact (proj1 (trigger_crawl_rejects_request (fixed_crawl sample_incoming)
                  "2024-05-01T12:00:00" (VList [VStr "municipal utility"])
                  (store_of sample_existing)) Htruthy Hobject).
Defined.

Lemma trigger_crawl_default_parameters_witness :
  py_truthy (VList []) = false ∧
  crawl_parameters (VList []) = Ok (default_queries, VInt 10).
Proof.
  split; [reflexivity|].
  exact (proj1 (trigger_crawl_default_parameters
                  (fixed_crawl sample_incoming) "2024-05-01T12:00:00"
                  (VList []) (store_of sample_existing) eq_refl)).
Defined.

Lemma trigger_crawl_unhashable_url_witness :
  crawl_parameters VNone = Ok (default_queries, VInt 10) ∧
  fixed_crawl sample_incoming default_queries (VInt 10)
  = Ok sample_incoming ∧
  Exists (λ m, ¬ hashable_url m)
    (load_mentions (store_of [list_url_mention]) ++ sample_incoming) ∧
  trigger_crawl (fixed_crawl sample_incoming) "2024-05-01T12:00:00" VNone
    (store_of [list_url_mention])
  = (crawl_failure TypeError,
     perform (CrawlerCalled default_queries (VInt 10))
       (store_of [list_url_mention])).
Proof.
  assert (Exists (λ m, ¬ hashable_url m)
            (load_mentions (store_of [list_url_mention]) ++ sample_incoming))
    as Hunhashable.
  { apply Exists_cons_hd. intros Hhashable. exact Hhashable. }
  split; [reflexivity|]. split; [reflexivity|]. split; [exact Hunhashable|].
  exact (trigger_crawl_unhashable_url (fixed_crawl sample_incoming)
           "2024-05-01T12:00:00" VNone default_queries (VInt 10)
           sample_incoming (store_of [list_url_mention])
           eq_refl eq_refl Hunhashable).
Defined.

Lemma sample_hashable :
  Forall hashable_url (load_mentions (store_of sample_existing)) ∧
  Forall hashable_url sample_incoming.
Proof. split; repeat constructor. Qed.

Lemma trigger_crawl_records_counts_witness :
  crawl_parameters VNone = Ok (default_queries, VInt 10) ∧
  fixed_crawl sample_incoming default_queries (VInt 10)
  = Ok sample_incoming ∧
  Forall hashable_url (load_mentions (store_of sample_existing)) ∧
  Forall hashable_url sample_incoming ∧
  crawl_log_fault (store_of sample_existing) = NoFault ∧
  ∃ (entry : gmap string value) (unique duplicates : Z),
    last (load_crawl_log
            (trigger_crawl (fixed_crawl sample_incoming)
               "2024-05-01T12:00:00" VNone (store_of sample_existing)).2)
    = Some (VDict entry) ∧
    entry !! "new_unique" = Some (VInt unique) ∧
    entry !! "duplicates" = Some (VInt duplicates) ∧
    2 = unique + duplicates.
Proof.
  split; [reflexivity|]. split; [reflexivity|].
  split; [exact (proj1 sample_hashable)|].
  split; [exact (proj2 sample_hashable)|]. split; [reflexivity|].
  destruct (trigger_crawl_records_counts (fixed_crawl sample_incoming)
              "2024-05-01T12:00:00" VNone default_queries (VInt 10)
              sample_incoming (store_of sample_existing) eq_refl eq_refl
              (proj1 sample_hashable) (proj2 sample_hashable) eq_refl)
    as (entry & summary & unique & duplicates & _ & Hlast & _ & _ & _
        & Hunique & Hduplicates & Hsum & _).
  exists entry, unique, duplicates.
  split; [exact Hlast|]. split; [exact Hunique|].
  split; [exact Hduplicates|exact Hsum].
Defined.

Lemma trigger_crawl_preview_witness :
  crawl_parameters VNone = Ok (default_queries, VInt 10) ∧
  fixed_crawl sample_incoming default_queries (VInt 10)
  = Ok sample_incoming ∧
  Forall hashable_url (load_mentions (store_of sample_existing)) ∧
  Forall hashable_url sample_incoming ∧
  ∃ summary : gmap string value,
    (trigger_crawl (fixed_crawl sample_incoming) "2024-05-01T12:00:00"
       VNone (store_of sample_existing)).1
    = json_response 200 (VDict summary) ∧
    summary !! "mentions"
    = Some (VList (VDict <$>
              take 10
                (admitted (load_mentions (store_of sample_existing))
                   sample_incoming))).
Proof.
  split; [reflexivity|]. split; [reflexivity|].
  split; [exact (proj1 sample_hashable)|].
  split; [exact (proj2 sample_hashable)|].
  destruct (trigger_crawl_preview (fixed_crawl sample_incoming)
              "2024-05-01T12:00:00" VNone default_queries (VInt 10)
              sample_incoming (store_of sample_existing) eq_refl eq_refl
              (proj1 sample_hashable) (proj2 sample_hashable))
    as (summary & Hanswer & Hpreview & _).
  exists summary. split; [exact Hanswer|exact Hpreview].
Defined.

Lemma trigger_crawl_appends_only_witness :
  mentions_fault (store_of sample_existing) ≠ DumpFails ∧
  load_mentions (store_of sample_existing)
    `prefix_of`
    load_mentions
      (trigger_crawl (fixed_crawl sample_incoming) "2024-05-01T12:00:00"
         VNone (store_of sample_existing)).2.
Proof.
  assert (mentions_fault (store_of sample_existing) ≠ DumpFails) as Hfault
    by discriminate.
  split; [exact Hfault|].
  exact (trigger_crawl_appends_only (fixed_crawl sample_incoming)
           "2024-05-01T12:00:00" VNone (store_of sample_existing) Hfault).
Defined.

Lemma sample_listable :
  Forall (λ m, listable "location" m ∧ listable "source" m)
    (load_mentions (store_of sample_located)).
Proof.
  repeat constructor; intros Htruthy; try exact I;
    by apply bool_decide_unpack in Htruthy.
Qed.

Lemma get_stats_counts_witness :
  Forall (λ m, listable "location" m ∧ listable "source" m)
    (load_mentions (store_of sample_located)) ∧
  ∃ st, get_stats sample_fromisoformat (2024, 5, 1) (store_of sample_located)
        = Ok st ∧
    total st = 2%nat ∧
    (pending st + approved st + deleted st ≤ total st)%nat.
Proof.
  split; [exact sample_listable|].
  destruct (get_stats_counts sample_fromisoformat (2024, 5, 1)
              (store_of sample_located) sample_listable)
    as (st & Hstats & Htotal & _ & _ & _ & Hsum & _).
  exists st. split; [exact Hstats|]. split; [exact Htotal|exact Hsum].
Defined.

Lemma get_stats_unhashable_witness :
  Exists (λ m, ¬ listable "location" m ∨ ¬ listable "source" m)
    (load_mentions (store_of [list_location_mention])) ∧
  get_stats sample_fromisoformat (2024, 5, 1)
    (store_of [list_location_mention])
  = Raise TypeError.
Proof.
  assert (Exists (λ m, ¬ listable "location" m ∨ ¬ listable "source" m)
            (load_mentions (store_of [list_location_mention])))
    as Hunhashable.
  { apply Exists_cons_hd. left. intros Hlistable. by apply Hlistable. }
  split; [exact Hunhashable|].
  exact (get_stats_unhashable sample_fromisoformat (2024, 5, 1)
           (store_of [list_location_mention]) Hunhashable).
Defined.

Lemma get_stats_distinct_values_witness :
  Forall (λ m, listable "location" m ∧ listable "source" m)
    (load_mentions (store_of sample_located)) ∧
  ∃ st, get_stats sample_fromisoformat (2024, 5, 1) (store_of sample_located)
        = Ok st ∧
    KStr "Boulder" ∈ locations st ∧ KStr "" ∉ locations st.
Proof.
  split; [exact sample_listable|].
  destruct (get_stats_distinct_values sample_fromisoformat (2024, 5, 1)
              (store_of sample_located) sample_listable)
    as (st & Hstats & Hlocations & _ & _ & Hempty & _).
  exists st. split; [exact Hstats|]. split; [|exact Hempty].
  apply Hlocations.
  exists (located_mention "11" "Boulder" "2024-05-01T09:30:00").
  split; [left|]. split; [exact I|reflexivity].
Defined.

Lemma get_stats_undated_witness :
  (∀ m, m ∈ load_mentions (store_of [without_url "8"]) →
     match m !! "capturedAt" with
     | Some (VStr _) => False
     | Some _ => True
     | None => sample_fromisoformat "2000-01-01" ≠ Some (2024, 5, 1)
     end) ∧
  get_stats sample_fromisoformat (2024, 5, 1) (store_of [without_url "8"])
  = Ok (Statistics 1 0 0 0 0 ∅ ∅) ∧
  today_captured (Statistics 1 0 0 0 0 ∅ ∅) = 0%nat.
Proof.
  assert (∀ m, m ∈ load_mentions (store_of [without_url "8"]) →
            match m !! "capturedAt" with
            | Some (VStr _) => False
            | Some _ => True
            | None => sample_fromisoformat "2000-01-01" ≠ Some (2024, 5, 1)
            end) as Hundated.
  { intros m Hm.
    change (load_mentions (store_of [without_url "8"]))
      with [without_url "8"] in Hm.
    apply list_elem_of_singleton in Hm as ->. by vm_compute. }
  assert (get_stats sample_fromisoformat (2024, 5, 1)
            (store_of [without_url "8"])
          = Ok (Statistics 1 0 0 0 0 ∅ ∅)) as Hstats by reflexivity.
  split; [exact Hundated|]. split; [exact Hstats|].
  exact (get_stats_undated sample_fromisoformat (2024, 5, 1)
           (store_of [without_url "8"]) _ Hundated Hstats).
Defined.
